(** * hypr-bench: the netblast orchestrator of [cmd/root.go]

    A shallow embedding of [runNetblastTests] and [calculateDistance]
    (cmd/root.go) and the properties the specification states about
    them.

    Conventions of the embedding.
    - A Go [float64] that the program reads, compares or combines with
      [+ - * /] is a rational number ([Q]); NaN and the infinities are
      outside the model.  [calculateDistance], which needs [math.Sin],
      [math.Cos], [math.Sqrt] and [math.Atan2], is embedded over the
      real numbers ([R]).
    - A Go [int] is a [Z]; a Go [string] is a [string].
    - A Go [error] is an [option string]: [None] is [nil].
    - Calls that leave the program ([strconv.ParseFloat],
      [json.Unmarshal], [exec.Command]) are parameters of the model.
    - [sort.Slice] is the insertion sort that the sort package of the
      Go release of the Dockerfile (1.22) runs on a slice of at most
      12 elements; the slice of results has at most 5. *)

From Stdlib Require Import ZArith QArith Qminmax Reals Psatz.
From Stdlib Require Import List String Ascii Permutation Sorted.
From Stdlib Require Import DecimalString.
From stdpp Require Import gmap strings list sorting.

Import ListNotations.
Local Open Scope string_scope.
Local Open Scope Z_scope.

(** ** Go library functions used by the program *)

Definition error := option string.

Definition isNil (err : error) : bool :=
  match err with None => true | Some _ => false end.

(** [strings.Contains s substr]. *)
Fixpoint Contains (s substr : string) : bool :=
  String.prefix substr s ||
  match s with
  | EmptyString => false
  | String _ s' => Contains s' substr
  end.

(** The loop of [strings.Split] for a separator that is not empty:
    [skip] counts the bytes of a separator still to be passed over and
    [cur] is the piece being read. *)
Fixpoint splitLoop (sep : string) (skip : nat) (cur s : string) : list string :=
  match s with
  | EmptyString => [cur]
  | String c s' =>
      match skip with
      | S k => splitLoop sep k cur s'
      | O =>
          if String.prefix sep s
          then cur :: splitLoop sep (Nat.pred (String.length sep)) "" s'
          else splitLoop sep O (cur ++ String c "") s'
      end
  end.

(** [strings.Split s sep], [sep] not empty (the program passes ",",
    " ", "x" and "-"). *)
Definition Split (s sep : string) : list string := splitLoop sep O "" s.

(** [strings.TrimPrefix s prefix]. *)
Fixpoint dropBytes (n : nat) (s : string) : string :=
  match n, s with
  | S k, String _ s' => dropBytes k s'
  | _, _ => s
  end.

Definition TrimPrefix (s prefix : string) : string :=
  if String.prefix prefix s then dropBytes (String.length prefix) s else s.

(** [strconv.Atoi]: an optional sign and at least one decimal digit;
    a value outside of 64 bits is an error, returned with the nearest
    64-bit value. *)
Definition digitValue (c : ascii) : option Z :=
  let n := Z.of_nat (nat_of_ascii c) in
  if (48 <=? n) && (n <=? 57) then Some (n - 48) else None.

Fixpoint readDigits (acc : Z) (s : string) : option Z :=
  match s with
  | EmptyString => Some acc
  | String c s' =>
      match digitValue c with
      | Some d => readDigits (10 * acc + d) s'
      | None => None
      end
  end.

Definition readNat (s : string) : option Z :=
  match s with
  | EmptyString => None
  | _ => readDigits 0 s
  end.

Definition Atoi (s : string) : Z * error :=
  let signed :=
    match s with
    | String "-"%char s' => option_map Z.opp (readNat s')
    | String "+"%char s' => readNat s'
    | _ => readNat s
    end in
  match signed with
  | Some n =>
      if (- 2 ^ 63 <=? n) && (n <? 2 ^ 63) then (n, None)
      else (if n <? 0 then - 2 ^ 63 else 2 ^ 63 - 1, Some "value out of range")
  | None => (0, Some "invalid syntax")
  end.

(** [fmt.Sprintf("%d", n)]. *)
Definition itoa (n : Z) : string := NilEmpty.string_of_int (Z.to_int n).

(** Comparison of two [float64] values. *)
Definition Qgtb (a b : Q) : bool := negb (Qle_bool a b).
Definition Qgeb (a b : Q) : bool := Qle_bool b a.

(** [insertionSortLessFunc] of package sort, the whole of [sort.Slice]
    on a slice of at most 12 elements: the element at index [i] is
    swapped towards the front while it is [less] than its left
    neighbour.  [sortedRev] is the prefix already sorted, last element
    first. *)
Section SortSlice.
Context {A : Type} (less : A -> A -> bool).

Fixpoint swapDown (x : A) (sortedRev : list A) : list A :=
  match sortedRev with
  | [] => [x]
  | y :: before =>
      if less x y then y :: swapDown x before else x :: y :: before
  end.

Definition insertionSortLessFunc (data : list A) : list A :=
  List.rev (fold_left (fun sortedRev x => swapDown x sortedRev) data []).

Definition sort_Slice (data : list A) : list A := insertionSortLessFunc data.

End SortSlice.

(** ** Data *)

(** The struct the ipinfo.io answer is decoded into. *)
Module SelfLocation.
Record t := mk {
  IP : string;
  City : string;
  Region : string;
  Country : string;
  Loc : string;
  Timezone : string
}.
End SelfLocation.

(** An entry of the server feed. *)
Record Iperf3Server := mkIperf3Server {
  IP_HOST : string;
  OPTIONS : string;
  GB_S : string;
  COUNTRY : string;
  SITE : string;
  CONTINENT : string;
  PROVIDER : string
}.

(** The element type of [serversWithDistance]. *)
Module Server.
Record t := mk {
  Host : string;
  Port : Z;
  City : string;
  Country : string;
  Distance : Z;
  Lat : Q;
  Lon : Q;
  Command : string;
  Options : string;
  Bandwidth : string;
  Provider : string
}.
End Server.

(** The element type of [serversWithBandwidth], [highBandwidthServers]
    and [selectedServers]. *)
Module Scored.
Record t := mk {
  Host : string;
  Port : Z;
  City : string;
  Country : string;
  Distance : Z;
  Lat : Q;
  Lon : Q;
  Command : string;
  Options : string;
  Bandwidth : string;
  Provider : string;
  BandwidthGbps : Q;
  BandwidthMbps : Q;
  Score : Q
}.
End Scored.

Record NetblastResult := mkNetblastResult {
  Host : string;
  Port : Z;
  Location : string;
  Distance : Z;
  DownloadMbps : Q;
  UploadMbps : Q;
  TestCompleted : bool;
  Rank : Z
}.

(** A decoded JSON value, as [json.Unmarshal] stores it in an
    [interface{}]. *)
#[local] Unset Elimination Schemes.
Inductive json :=
| JNull
| JBool (b : bool)
| JNumber (f : Q)
| JString (s : string)
| JArray (items : list json)
| JObject (fields : list (string * json)).
#[local] Set Elimination Schemes.

(** [m[key]] on a decoded [map[string]interface{}]. *)
Fixpoint index (m : list (string * json)) (key : string) : option json :=
  match m with
  | [] => None
  | (k, v) :: rest => if String.eqb k key then Some v else index rest key
  end.

(** The type assertions [.(map[string]interface{})] and [.(float64)]. *)
Definition asMap (v : option json) : option (list (string * json)) :=
  match v with Some (JObject fields) => Some fields | _ => None end.

Definition asFloat64 (v : option json) : option Q :=
  match v with Some (JNumber f) => Some f | _ => None end.

(** The argument vector of a subprocess, and a goroutine's view of the
    world: what the next subprocess answers, given the ones the
    goroutine has run so far. *)
Definition argv := list string.
Definition World := list argv -> argv -> string * error.

(** A computation that runs subprocesses: the log of the invocations is
    threaded through. *)
Definition Task (A : Type) : Type := list argv -> A * list argv.

Definition ret {A : Type} (a : A) : Task A := fun log => (a, log).

Definition bind {A B : Type} (f : A -> Task B) (m : Task A) : Task B :=
  fun log => let (a, log') := m log in f a log'.

#[global] Instance Task_ret : MRet Task := @ret.
#[global] Instance Task_bind : MBind Task := @bind.

(** [runCommand name arg...] in the world [w]. *)
Definition runCommand (w : World) (args : argv) : Task (string * error) :=
  fun log => (w log args, (log ++ [args])%list).

(** ** [calculateDistance] *)

(** [math.Atan2 y x]. *)
Local Open Scope R_scope.

Definition Atan2 (y x : R) : R :=
  if Rlt_dec 0 x then atan (y / x)
  else if Rlt_dec x 0 then
    if Rle_dec 0 y then atan (y / x) + PI else atan (y / x) - PI
  else if Rlt_dec 0 y then PI / 2
  else if Rlt_dec y 0 then - PI / 2
  else 0.

(** The conversion [int(f)] of a [float64]: the fractional part is
    discarded. *)
Definition float64_to_int (f : R) : Z :=
  if Rle_dec 0 f then Int_part f else (- Int_part (- f))%Z.

Definition earthRadius : R := 6371.

(** The value of the local variable [distance] of [calculateDistance]. *)
Definition haversine (lat1 lon1 lat2 lon2 : R) : R :=
  let lat1Rad := lat1 * PI / 180 in
  let lon1Rad := lon1 * PI / 180 in
  let lat2Rad := lat2 * PI / 180 in
  let lon2Rad := lon2 * PI / 180 in
  let dLat := lat2Rad - lat1Rad in
  let dLon := lon2Rad - lon1Rad in
  let a := sin (dLat / 2) * sin (dLat / 2)
           + cos lat1Rad * cos lat2Rad * sin (dLon / 2) * sin (dLon / 2) in
  let c := 2 * Atan2 (sqrt a) (sqrt (1 - a)) in
  earthRadius * c.

Definition calculateDistance (lat1 lon1 lat2 lon2 : R) : Z :=
  float64_to_int (haversine lat1 lon1 lat2 lon2).

(** What the specification asks of [distanceKm]: the same great-circle
    distance, rounded to the nearest integer. *)
Definition nearestInteger (f : R) : Z := Int_part (f + 1 / 2).

Definition spec_distanceKm (lat1 lon1 lat2 lon2 : R) : Z :=
  nearestInteger (haversine lat1 lon1 lat2 lon2).

Local Close Scope R_scope.

(** ** [runNetblastTests]: self-location and the candidate list *)

(** Where [runNetblastTests] stands after a stage: it has returned an
    error, or it goes on with the values the stage computed. *)
Inductive outcome (A : Type) : Type :=
| Return (err : string)
| Proceed (a : A).
Arguments Return {A} err.
Arguments Proceed {A} a.

Section Netblast.

(** [strconv.ParseFloat s 64]: the value and the error. *)
Variable ParseFloat : string -> Q * error.

(** [json.Unmarshal] into the self-location struct, into the slice of
    feed entries and into a [map[string]interface{}]; [None] is an
    error. *)
Variable Unmarshal_selfLocation : string -> option SelfLocation.t.
Variable Unmarshal_servers : string -> option (list Iperf3Server).
Variable Unmarshal_map : string -> option (list (string * json)).

(** [exec.LookPath] succeeds, and what [curl] answers. *)
Variable LookPath : string -> bool.
Variable curl : argv -> string * error.

(** Lines 3301-3309: latitude and longitude of the operator. *)
Definition selfCoordinates (selfLocation : SelfLocation.t) : Q * Q :=
  if negb (String.eqb (SelfLocation.Loc selfLocation) "") then
    let locParts := Split (SelfLocation.Loc selfLocation) "," in
    match locParts with
    | [part0; part1] => (fst (ParseFloat part0), fst (ParseFloat part1))
    | _ => (0%Q, 0%Q)
    end
  else (0%Q, 0%Q).

(** Lines 3278-3312. *)
Definition locateSelf : outcome (SelfLocation.t * (Q * Q)) :=
  let '(selfLocationOutput, err) := curl ["curl"; "-s"; "https://ipinfo.io/json"] in
  match err with
  | Some e => Return ("error getting self location: " ++ e)
  | None =>
      match Unmarshal_selfLocation selfLocationOutput with
      | None => Return "error parsing self location"
      | Some selfLocation => Proceed (selfLocation, selfCoordinates selfLocation)
      end
  end.

(** Lines 3369-3390: the port that follows the first "-p". *)
Definition parsePort (portRange : string) (port : Z) : Z :=
  if Contains portRange "-" then
    let portParts := Split portRange "-" in
    let portStr := hd "" portParts in
    let '(parsedPort, err) := Atoi portStr in
    if isNil err then parsedPort else port
  else
    let '(parsedPort, err) := Atoi portRange in
    if isNil err then parsedPort else port.

Fixpoint findPort (parts : list string) (port : Z) : Z :=
  match parts with
  | part :: ((next :: _) as rest) =>
      if String.eqb part "-p" then parsePort next port else findPort rest port
  | _ => port
  end.

(** The [switch] on [server.COUNTRY] and [server.SITE]; [None] is the
    [continue] of the default case. *)
Definition coordinates (country site : string) : option (Q * Q) :=
  if String.eqb country "US" then
    Some (if String.eqb site "New York" then (40.7128, -74.0060)
          else if String.eqb site "Los Angeles" then (34.0522, -118.2437)
          else if String.eqb site "Miami" then (25.7617, -80.1918)
          else if String.eqb site "Chicago" then (41.8781, -87.6298)
          else if String.eqb site "Dallas" then (32.7767, -96.7970)
          else if String.eqb site "San Francisco" then (37.7749, -122.4194)
          else if String.eqb site "Seattle" then (47.6062, -122.3321)
          else if String.eqb site "Houston" then (29.7604, -95.3698)
          else (37.0902, -95.7129))%Q
  else if String.eqb country "UK" || String.eqb country "GB" then
    Some (if String.eqb site "London" then (51.5074, -0.1278)
          else (55.3781, -3.4360))%Q
  else if String.eqb country "FR" then
    Some (if String.eqb site "Paris" then (48.8566, 2.3522)
          else (46.2276, 2.2137))%Q
  else if String.eqb country "DE" then
    Some (if String.eqb site "Frankfurt" then (50.1109, 8.6821)
          else if String.eqb site "Berlin" then (52.5200, 13.4050)
          else (51.1657, 10.4515))%Q
  else if String.eqb country "NL" then Some (52.3676, 4.9041)%Q
  else if String.eqb country "SG" then Some (1.3521, 103.8198)%Q
  else if String.eqb country "JP" then Some (35.6762, 139.6503)%Q
  else if String.eqb country "AU" then
    Some (if String.eqb site "Sydney" then (-33.8688, 151.2093)
          else (-25.2744, 133.7751))%Q
  else None.

(** The body of the loop over [iperf3Servers], lines 3356-3489. *)
Definition processServer (selfLat selfLon : Q) (server : Iperf3Server)
  : option Server.t :=
  let hostAndPort := TrimPrefix (IP_HOST server) "iperf3 -c " in
  let parts := Split hostAndPort " " in
  let host := hd "" parts in
  let port := findPort (tl parts) 5201 in
  match coordinates (COUNTRY server) (SITE server) with
  | None => None
  | Some (lat, lon) =>
      let distance :=
        calculateDistance (Q2R selfLat) (Q2R selfLon) (Q2R lat) (Q2R lon) in
      Some {| Server.Host := host;
              Server.Port := port;
              Server.City := SITE server;
              Server.Country := COUNTRY server;
              Server.Distance := distance;
              Server.Lat := lat;
              Server.Lon := lon;
              Server.Command := IP_HOST server;
              Server.Options := OPTIONS server;
              Server.Bandwidth := GB_S server;
              Server.Provider := PROVIDER server |}
  end.

(** Lines 3254-3489: [serversWithDistance] before it is sorted, or the
    error [runNetblastTests] returns. *)
Definition fetchCandidates : outcome (list Server.t) :=
  if negb (LookPath "iperf3") then Return "iperf3 command not found"
  else if negb (LookPath "curl") then Return "curl command not found"
  else if negb (LookPath "jq") then Return "jq command not found"
  else
    match locateSelf with
    | Return e => Return e
    | Proceed (_, (selfLat, selfLon)) =>
        let '(serversOutput, err) :=
          curl ["curl"; "-s"; "--connect-timeout"; "10";
                "https://export.iperf3serverlist.net/json.php?action=download"] in
        match err with
        | Some e => Return ("error fetching iperf3 server list: " ++ e)
        | None =>
            match Unmarshal_servers serversOutput with
            | None => Return "error parsing iperf3 server list"
            | Some iperf3Servers =>
                Proceed (omap (processServer selfLat selfLon) iperf3Servers)
            end
        end
    end.

(** ** [runNetblastTests]: capacity and score *)

(** Lines 3498-3507; the argument is
    [sysInfo.SpeedtestResults.DownloadMbps]. *)
Definition estimatedUserBandwidth (speedtestDownloadMbps : Q) : Q :=
  let estimated :=
    if Qgtb speedtestDownloadMbps 0 then speedtestDownloadMbps else 1000%Q in
  if Qgtb estimated 10000 then 25000%Q else estimated.

(** Lines 3532-3551: the capacity string of a server, in Gbps. *)
Definition bandwidthGbps (bandwidthStr : string) : Q :=
  if Contains bandwidthStr "x" then
    match Split bandwidthStr "x" with
    | [part0; part1] =>
        let '(count, err1) := ParseFloat part0 in
        let '(speed, err2) := ParseFloat part1 in
        if isNil err1 && isNil err2 then (count * speed)%Q else 1%Q
    | _ => 1%Q
    end
  else
    let '(speed, err) := ParseFloat bandwidthStr in
    if isNil err then speed else 1%Q.

(** The body of the loop over [serversWithDistance], lines 3530-3607. *)
Definition scoreServer (server : Server.t) : Scored.t :=
  let bandwidthGbps := bandwidthGbps (Server.Bandwidth server) in
  let bandwidthMbps := (bandwidthGbps * 1000)%Q in
  let bandwidthScore := ((bandwidthGbps / 100) * 100)%Q in
  let bandwidthScore :=
    if Qgtb bandwidthScore 100 then 100%Q else bandwidthScore in
  let distanceScore := (inject_Z (Server.Distance server) / 200)%Q in
  let distanceScore :=
    if Qgtb distanceScore 100 then 100%Q else distanceScore in
  let score := (bandwidthScore * 0.8 - distanceScore * 0.2)%Q in
  {| Scored.Host := Server.Host server;
     Scored.Port := Server.Port server;
     Scored.City := Server.City server;
     Scored.Country := Server.Country server;
     Scored.Distance := Server.Distance server;
     Scored.Lat := Server.Lat server;
     Scored.Lon := Server.Lon server;
     Scored.Command := Server.Command server;
     Scored.Options := Server.Options server;
     Scored.Bandwidth := Server.Bandwidth server;
     Scored.Provider := Server.Provider server;
     Scored.BandwidthGbps := bandwidthGbps;
     Scored.BandwidthMbps := bandwidthMbps;
     Scored.Score := score |}.

(** The score as the specification writes it. *)
Definition spec_bandwidthScore (advertisedBandwidthGbps : Q) : Q :=
  Qmin 100 (advertisedBandwidthGbps / 100 * 100).

Definition spec_distanceScore (distanceKm : Z) : Q :=
  Qmin 100 (inject_Z distanceKm / 200).

Definition spec_score (advertisedBandwidthGbps : Q) (distanceKm : Z) : Q :=
  (0.8 * spec_bandwidthScore advertisedBandwidthGbps
   - 0.2 * spec_distanceScore distanceKm)%Q.

(** ** [runNetblastTests]: selection *)

(** The loops that look for [server] among [selectedServers]. *)
Definition alreadySelected (selectedServers : list Scored.t) (server : Scored.t)
  : bool :=
  existsb (fun selected =>
             String.eqb (Scored.Host selected) (Scored.Host server)
             && (Scored.Port selected =? Scored.Port server))
          selectedServers.

(** Lines 3636-3652: the servers with 1.5 times the operator's
    bandwidth, or the first ten of the list when fewer than five have
    it. *)
Definition highBandwidthServers (estimatedUserBandwidth : Q)
    (serversWithBandwidth : list Scored.t) : list Scored.t :=
  let minRequiredBandwidth := (estimatedUserBandwidth * 1.5)%Q in
  let high :=
    List.filter (fun server => Qgeb (Scored.BandwidthMbps server) minRequiredBandwidth)
                serversWithBandwidth in
  if (length high <? 5)%nat then
    let count := Nat.min 10 (length serversWithBandwidth) in
    take count serversWithBandwidth
  else high.

(** The three variables the selection loops update. *)
Record Selection := mkSelection {
  selectedServers : list Scored.t;
  selectedProviders : gmap string bool;
  selectedLocations : gmap string bool
}.

(** [m[key]] on a [map[string]bool]. *)
Definition member (m : gmap string bool) (key : string) : bool :=
  default false (m !! key).

Definition location (server : Scored.t) : string :=
  Scored.City server ++ "," ++ Scored.Country server.

Definition addDiverse (sel : Selection) (server : Scored.t) : Selection :=
  {| selectedServers := (selectedServers sel ++ [server])%list;
     selectedProviders := <[Scored.Provider server := true]> (selectedProviders sel);
     selectedLocations := <[location server := true]> (selectedLocations sel) |}.

(** Lines 3677-3681. *)
Definition addHighest (pool : list Scored.t) : Selection :=
  let empty := {| selectedServers := []; selectedProviders := ∅;
                  selectedLocations := ∅ |} in
  match pool with
  | highest :: _ => addDiverse empty highest
  | [] => empty
  end.

(** Lines 3684-3712; the recursion ends early where the loop breaks. *)
Fixpoint diversityPass (pool : list Scored.t) (sel : Selection) : Selection :=
  match pool with
  | [] => sel
  | server :: rest =>
      if alreadySelected (selectedServers sel) server then diversityPass rest sel
      else if member (selectedProviders sel) (Scored.Provider server)
              && member (selectedLocations sel) (location server)
      then diversityPass rest sel
      else
        let sel' := addDiverse sel server in
        if (5 <=? length (selectedServers sel'))%nat then sel'
        else diversityPass rest sel'
  end.

(** Lines 3716-3734. *)
Fixpoint fillPass (pool : list Scored.t) (selectedServers : list Scored.t)
  : list Scored.t :=
  match pool with
  | [] => selectedServers
  | server :: rest =>
      if negb (alreadySelected selectedServers server) then
        let selectedServers' := (selectedServers ++ [server])%list in
        if (5 <=? length selectedServers')%nat then selectedServers'
        else fillPass rest selectedServers'
      else fillPass rest selectedServers
  end.

(** Lines 3633-3740: [selectedServers], from the list sorted by score. *)
Definition selectServers (estimatedUserBandwidth : Q)
    (serversWithBandwidth : list Scored.t) : list Scored.t :=
  let pool := highBandwidthServers estimatedUserBandwidth serversWithBandwidth in
  let sel := diversityPass pool (addHighest pool) in
  let selected := selectedServers sel in
  let selected :=
    if (length selected <? 5)%nat then fillPass pool selected else selected in
  if (5 <? length selected)%nat then take 5 selected else selected.

(** Lines 3765-3791. *)
Definition toServer (server : Scored.t) : Server.t :=
  {| Server.Host := Scored.Host server;
     Server.Port := Scored.Port server;
     Server.City := Scored.City server;
     Server.Country := Scored.Country server;
     Server.Distance := Scored.Distance server;
     Server.Lat := Scored.Lat server;
     Server.Lon := Scored.Lon server;
     Server.Command := Scored.Command server;
     Server.Options := Scored.Options server;
     Server.Bandwidth := Scored.Bandwidth server;
     Server.Provider := Scored.Provider server |}.

(** ** [runNetblastTests]: the test of one server *)

Definition setDownloadMbps (result : NetblastResult) (mbps : Q) : NetblastResult :=
  {| Host := Host result; Port := Port result; Location := Location result;
     Distance := Distance result; DownloadMbps := mbps;
     UploadMbps := UploadMbps result; TestCompleted := TestCompleted result;
     Rank := Rank result |}.

Definition setUploadMbps (result : NetblastResult) (mbps : Q) : NetblastResult :=
  {| Host := Host result; Port := Port result; Location := Location result;
     Distance := Distance result; DownloadMbps := DownloadMbps result;
     UploadMbps := mbps; TestCompleted := TestCompleted result;
     Rank := Rank result |}.

Definition setTestCompleted (result : NetblastResult) (completed : bool)
  : NetblastResult :=
  {| Host := Host result; Port := Port result; Location := Location result;
     Distance := Distance result; DownloadMbps := DownloadMbps result;
     UploadMbps := UploadMbps result; TestCompleted := completed;
     Rank := Rank result |}.

Definition setRank (result : NetblastResult) (rank : Z) : NetblastResult :=
  {| Host := Host result; Port := Port result; Location := Location result;
     Distance := Distance result; DownloadMbps := DownloadMbps result;
     UploadMbps := UploadMbps result; TestCompleted := TestCompleted result;
     Rank := rank |}.

(** [end.<sum>.bits_per_second] of a decoded iperf3 report, when every
    type assertion on the way succeeds. *)
Definition bitsPerSecond (report : list (string * json)) (sum : string) : option Q :=
  match asMap (index report "end") with
  | Some end_ =>
      match asMap (index end_ sum) with
      | Some sumObject => asFloat64 (index sumObject "bits_per_second")
      | None => None
      end
  | None => None
  end.

(** Lines 3943-3949. *)
Definition finish (result : NetblastResult) : NetblastResult :=
  if Qgtb (DownloadMbps result) 0 && Qgtb (UploadMbps result) 0
  then setTestCompleted result true
  else result.

(** The first and the second invocation of a leg; [flags] is empty for
    the download and ["-R"] for the upload. *)
Definition firstArgs (commandParts : list string) (flags : list string) : argv :=
  (["timeout"; "15"] ++ commandParts ++ ["-t"; "5"] ++ flags ++ ["-J"])%list.

Definition retryArgs (serverCopy : Server.t) (flags : list string) : argv :=
  (["timeout"; "10"; "iperf3"; "-c"; Server.Host serverCopy;
    "-p"; itoa (Server.Port serverCopy); "-t"; "3"] ++ flags ++ ["-J"])%list.

(** Lines 3894-3941, entered with a positive download speed. *)
Definition uploadLeg (w : World) (serverCopy : Server.t)
    (commandParts : list string) (result : NetblastResult) : Task NetblastResult :=
  let supportsUpload := Contains (Server.Options serverCopy) "-R" in
  if supportsUpload then
    '(uploadOutput, uploadErr) ← runCommand w (firstArgs commandParts ["-R"]);
    '(uploadOutput, uploadErr) ←
      (if isNil uploadErr then ret (uploadOutput, uploadErr)
       else runCommand w (retryArgs serverCopy ["-R"]));
    if isNil uploadErr then
      match Unmarshal_map uploadOutput with
      | None => ret result
      | Some uploadResult =>
          match bitsPerSecond uploadResult "sum_sent" with
          | Some bits => ret (finish (setUploadMbps result (bits / 1000000)%Q))
          | None => ret (finish result)
          end
      end
    else ret result
  else ret (finish result).

(** The body of the goroutine, lines 3832-3950: the result it sends on
    [resultChan]. *)
Definition runTest (w : World) (rank : Z) (serverCopy : Server.t)
  : Task NetblastResult :=
  let result :=
    {| Host := Server.Host serverCopy;
       Port := Server.Port serverCopy;
       Location := Server.City serverCopy ++ ", " ++ Server.Country serverCopy;
       Distance := Server.Distance serverCopy;
       DownloadMbps := (-1)%Q;
       UploadMbps := (-1)%Q;
       TestCompleted := false;
       Rank := rank |} in
  let commandParts := Split (Server.Command serverCopy) " " in
  if (length commandParts <? 3)%nat then ret result
  else
    '(downloadOutput, downloadErr) ← runCommand w (firstArgs commandParts []);
    '(downloadOutput, downloadErr) ←
      (if isNil downloadErr then ret (downloadOutput, downloadErr)
       else runCommand w (retryArgs serverCopy []));
    if isNil downloadErr then
      match Unmarshal_map downloadOutput with
      | None => ret result
      | Some downloadResult =>
          let result :=
            match bitsPerSecond downloadResult "sum_received" with
            | Some bits => setDownloadMbps result (bits / 1000000)%Q
            | None => result
            end in
          if Qgtb (DownloadMbps result) 0
          then uploadLeg w serverCopy commandParts result
          else ret (finish result)
      end
    else ret result.

(** Lines 3826-3951: goroutine [i] runs in its own world [worlds i]
    and gets rank [i + 1]; the results, in the order of the servers. *)
Definition launched (worlds : nat -> World) (servers : list Server.t)
  : list NetblastResult :=
  imap (fun i server => fst (runTest (worlds i) (Z.of_nat i + 1) server [])) servers.

(** Lines 3959-3963: [results] holds what the goroutines sent, in the
    order in which they finished. *)
Definition collected (worlds : nat -> World) (servers : list Server.t)
    (results : list NetblastResult) : Prop :=
  Permutation (launched worlds servers) results.

(** ** [runNetblastTests]: ranking *)

Definition byDownloadMbps (a b : NetblastResult) : bool :=
  Qgtb (DownloadMbps a) (DownloadMbps b).

(** Lines 3965-3973. *)
Definition aggregate (results : list NetblastResult) : list NetblastResult :=
  imap (fun i result => setRank result (Z.of_nat i + 1))
       (sort_Slice byDownloadMbps results).

(** Lines 3965-4011: the ranked results go to
    [sysInfo.NetblastResults] and [runNetblastTests] returns [nil]. *)
Definition storeResults (results : list NetblastResult)
  : list NetblastResult * error :=
  (aggregate results, None).

End Netblast.

From Stdlib Require Import Machin.
From Stdlib Require DecimalPos.

(** ** The ranked results in the report *)

(** [printSystemInformation], lines 914-917, and [exportResultsToHTML],
    lines 4296-4301: the results are sorted by rank before they are
    written. *)
Definition byRank (a b : NetblastResult) : bool := Rank a <? Rank b.

Definition sortByRank (results : list NetblastResult) : list NetblastResult :=
  sort_Slice byRank results.

(** ** [runIperf3Tests]: the choice of the servers *)

Module Iperf3.

(** [min], lines 4024-4029. *)
Definition min (a b : Z) : Z := if a <? b then a else b.

(** The element type of [serversWithDistance] in [runIperf3Tests]. *)
Module Candidate.
Record t := mk {
  Host : string;
  Port : Z;
  City : string;
  Country : string;
  Continent : string;
  Distance : Z;
  Command : string;
  Options : string;
  Bandwidth : string;
  Provider : string
}.
End Candidate.

(** The element type of [filteredServers], of the values of
    [continentServers] and of [selectedServers]. *)
Module Filtered.
Record t := mk {
  Host : string;
  Port : Z;
  City : string;
  Country : string;
  Continent : string;
  Distance : Z;
  Command : string;
  Options : string;
  Bandwidth : string;
  Provider : string;
  BandwidthGbps : Q
}.
End Filtered.

Section Selection.

Variable ParseFloat : string -> Q * error.

(** Lines 2773-2776. *)
Definition estimatedUserBandwidth (speedtestDownloadMbps : Q) : Q :=
  if Qgtb speedtestDownloadMbps 0 then speedtestDownloadMbps else 1000%Q.

(** The struct [serverWithBandwidth] of lines 2823-2847 and 2877-2902;
    lines 2796-2815 and 2859-2875 parse the capacity as
    [runNetblastTests] does. *)
Definition serverWithBandwidth (server : Candidate.t) : Filtered.t :=
  {| Filtered.Host := Candidate.Host server;
     Filtered.Port := Candidate.Port server;
     Filtered.City := Candidate.City server;
     Filtered.Country := Candidate.Country server;
     Filtered.Continent := Candidate.Continent server;
     Filtered.Distance := Candidate.Distance server;
     Filtered.Command := Candidate.Command server;
     Filtered.Options := Candidate.Options server;
     Filtered.Bandwidth := Candidate.Bandwidth server;
     Filtered.Provider := Candidate.Provider server;
     Filtered.BandwidthGbps := bandwidthGbps ParseFloat (Candidate.Bandwidth server) |}.

(** The test of line 2822. *)
Definition sufficient (estimatedUserBandwidth : Q) (server : Candidate.t) : bool :=
  let bandwidthMbps :=
    (bandwidthGbps ParseFloat (Candidate.Bandwidth server) * 1000)%Q in
  Qgeb bandwidthMbps (estimatedUserBandwidth * 2).

(** Lines 2780-2906: [filteredServers]. *)
Definition filterServers (estimatedUserBandwidth : Q)
    (serversWithDistance : list Candidate.t) : list Filtered.t :=
  let filteredServers :=
    omap (fun server =>
            if sufficient estimatedUserBandwidth server
            then Some (serverWithBandwidth server) else None)
         serversWithDistance in
  if (length filteredServers <? 3)%nat
  then serverWithBandwidth <$> serversWithDistance
  else filteredServers.

End Selection.

(** The [switch] of lines 2927-2942 on the country of a server, and the
    one of lines 2948-2962 on the country of the operator, which has
    the same cases and starts from the value of the default case. *)
Definition continentOf (country : string) : string :=
  if existsb (String.eqb country) ["US"; "CA"; "MX"] then "North America"
  else if existsb (String.eqb country) ["BR"; "AR"; "CL"; "CO"; "PE"; "VE"]
  then "South America"
  else if existsb (String.eqb country)
            ["GB"; "UK"; "FR"; "DE"; "IT"; "ES"; "NL"; "BE"; "CH"; "AT"; "SE";
             "NO"; "DK"; "FI"; "PL"; "CZ"; "HU"; "RO"; "BG"; "GR"; "PT"; "IE"]
  then "Europe"
  else if existsb (String.eqb country)
            ["CN"; "JP"; "KR"; "IN"; "SG"; "MY"; "TH"; "VN"; "ID"; "PH"]
  then "Asia"
  else if existsb (String.eqb country) ["AU"; "NZ"] then "Oceania"
  else if existsb (String.eqb country) ["ZA"; "EG"; "NG"; "KE"; "MA"; "DZ"; "TN"]
  then "Africa"
  else "Unknown".

(** Lines 2924-2943: the key under which a server is grouped. *)
Definition continent (server : Filtered.t) : string :=
  if String.eqb (Filtered.Continent server) ""
  then continentOf (Filtered.Country server)
  else Filtered.Continent server.

(** Lines 2909-2945: [continentServers]. *)
Definition groupByContinent (filteredServers : list Filtered.t)
  : gmap string (list Filtered.t) :=
  fold_left
    (fun continentServers server =>
       <[continent server :=
           (default [] (continentServers !! continent server) ++ [server])%list]>
         continentServers)
    filteredServers ∅.

(** Lines 2983-2989: up to two servers of the continent of the
    operator. *)
Definition fromUserContinent (continentServers : gmap string (list Filtered.t))
    (userContinent : string) : list Filtered.t :=
  match continentServers !! userContinent with
  | Some servers =>
      if (0 <? length servers)%nat then
        let count := min 2 (Z.of_nat (length servers)) in
        take (Z.to_nat count) servers
      else []
  | None => []
  end.

Definition continentsToCheck : list string :=
  ["Europe"; "North America"; "Asia"; "South America"; "Oceania"; "Africa"].

(** The body of the loop of lines 2993-3004. *)
Definition fromOtherContinent (continentServers : gmap string (list Filtered.t))
    (userContinent : string) (selectedServers : list Filtered.t)
    (continent : string) : list Filtered.t :=
  if String.eqb continent userContinent then selectedServers
  else
    match continentServers !! continent with
    | Some (first :: _) =>
        if Filtered.Distance first <? 15000
        then (selectedServers ++ [first])%list
        else selectedServers
    | _ => selectedServers
    end.

(** Lines 2909-3004: [selectedServers] before it is limited. *)
Definition beforeLimit (userCountry : string) (filteredServers : list Filtered.t)
  : list Filtered.t :=
  let continentServers := groupByContinent filteredServers in
  let userContinent := continentOf userCountry in
  fold_left (fromOtherContinent continentServers userContinent)
    continentsToCheck
    (fromUserContinent continentServers userContinent).

(** Lines 2909-3009. *)
Definition selectServers (userCountry : string) (filteredServers : list Filtered.t)
  : list Filtered.t :=
  let selectedServers := beforeLimit userCountry filteredServers in
  if (5 <? length selectedServers)%nat then take 5 selectedServers
  else selectedServers.

(** Lines 3019-3040: the servers to test, or the error
    [runIperf3Tests] returns. *)
Definition serverList (userCountry : string) (filteredServers : list Filtered.t)
  : outcome (list Filtered.t) :=
  let selectedServers := selectServers userCountry filteredServers in
  if (length selectedServers =? 0)%nat
  then Return "no iperf3 servers found to test"
  else Proceed selectedServers.

End Iperf3.

(** ** [humanReadableBytes] *)





(** ** Sample inputs *)

(** The result of a server on which both legs ran, or failed. *)
Definition sampleResult (host : string) (rank : Z) (download upload : Q)
  : NetblastResult :=
  {| Host := host; Port := 5201; Location := "Paris, FR"; Distance := 340;
     DownloadMbps := download; UploadMbps := upload;
     TestCompleted := Qgtb download 0 && Qgtb upload 0; Rank := rank |}.

(** Two servers whose tests failed, in the two orders in which their
    goroutines can finish. *)
Definition failedFirstA : list NetblastResult :=
  [sampleResult "a.example.net" 1 (-1) (-1); sampleResult "b.example.net" 2 (-1) (-1)].

Definition failedFirstB : list NetblastResult :=
  [sampleResult "b.example.net" 2 (-1) (-1); sampleResult "a.example.net" 1 (-1) (-1)].

(** Three measured servers and a failed one, in two orders. *)
Definition measured : list NetblastResult :=
  [sampleResult "a.example.net" 1 940.5 410; sampleResult "b.example.net" 2 (-1) (-1);
   sampleResult "c.example.net" 3 2210 0; sampleResult "d.example.net" 4 87.25 90].

Definition measuredLater : list NetblastResult :=
  [sampleResult "d.example.net" 4 87.25 90; sampleResult "c.example.net" 3 2210 0;
   sampleResult "b.example.net" 2 (-1) (-1); sampleResult "a.example.net" 1 940.5 410].

(** An instance of [strconv.ParseFloat] for the plain decimal numbers
    of the samples: an optional sign, digits, and an optional fraction. *)
Definition decimalUnsigned (body : string) : option Q :=
  match Split body "." with
  | [whole] => option_map inject_Z (readNat whole)
  | [whole; fraction] =>
      match readNat whole, readNat fraction with
      | Some n, Some f =>
          Some (inject_Z n
                + inject_Z f / inject_Z (10 ^ Z.of_nat (String.length fraction)))%Q
      | _, _ => None
      end
  | _ => None
  end.

Definition decimalParseFloat (s : string) : Q * error :=
  let signed :=
    match s with
    | String "-"%char body => option_map Qopp (decimalUnsigned body)
    | String "+"%char body => decimalUnsigned body
    | _ => decimalUnsigned s
    end in
  match signed with
  | Some f => (f, None)
  | None => (0%Q, Some "invalid syntax")
  end.

(** Two candidates, as the loop over the feed builds them. *)
Definition amsterdam : Server.t :=
  {| Server.Host := "ams.speedtest.example.net"; Server.Port := 5201;
     Server.City := "Amsterdam"; Server.Country := "NL"; Server.Distance := 360;
     Server.Lat := 52.3676; Server.Lon := 4.9041;
     Server.Command := "iperf3 -c ams.speedtest.example.net -p 5201-5210";
     Server.Options := "-R,-u"; Server.Bandwidth := "2x10";
     Server.Provider := "Provider A" |}.

Definition singapore : Server.t :=
  {| Server.Host := "sgp.speedtest.example.net"; Server.Port := 9200;
     Server.City := "Singapore"; Server.Country := "SG"; Server.Distance := 10500;
     Server.Lat := 1.3521; Server.Lon := 103.8198;
     Server.Command := "iperf3 -c sgp.speedtest.example.net -p 9200-9240";
     Server.Options := "-R"; Server.Bandwidth := "100";
     Server.Provider := "Provider B" |}.

Definition paris : Server.t :=
  {| Server.Host := "par.speedtest.example.net"; Server.Port := 5201;
     Server.City := "Paris"; Server.Country := "FR"; Server.Distance := 340;
     Server.Lat := 48.8566; Server.Lon := 2.3522;
     Server.Command := "iperf3 -c par.speedtest.example.net";
     Server.Options := ""; Server.Bandwidth := "40";
     Server.Provider := "Provider A" |}.

(** The reports of iperf3 that the sample worlds answer with, and their
    decoding. *)
Definition report (sum : string) (bits : Q) : list (string * json) :=
  [("start", JObject [("version", JString "iperf 3.16")]);
   ("end", JObject [(sum, JObject [("seconds", JNumber 5);
                                   ("bits_per_second", JNumber bits)])])].

Definition sampleUnmarshal (output : string) : option (list (string * json)) :=
  if String.eqb output "report: 940500000 bits per second received"
  then Some (report "sum_received" 940500000)
  else if String.eqb output "report: 410000000 bits per second sent"
  then Some (report "sum_sent" 410000000)
  else None.

(** Every subprocess succeeds. *)
Definition healthy : World :=
  fun log args =>
    if existsb (String.eqb "-R") args
    then ("report: 410000000 bits per second sent", None)
    else ("report: 940500000 bits per second received", None).

(** Every subprocess fails. *)
Definition unreachable : World :=
  fun log args => ("iperf3: error - unable to connect to server",
                   Some "exit status 1").

(** The first subprocess fails, the later ones succeed. *)
Definition failingOnce : World :=
  fun log args =>
    match log with
    | [] => unreachable log args
    | _ => healthy log args
    end.

(** Every subprocess exits with status 0 and prints no report. *)
Definition garbled : World :=
  fun log args => ("iperf3: interrupt - the client has terminated", None).

(** The first server is out of reach; the results arrive in the
    reverse of the order in which the goroutines were started. *)
Definition sampleWorlds (i : nat) : World :=
  if (i =? 0)%nat then unreachable else healthy.

Definition sampleCollected : list NetblastResult :=
  List.rev (launched sampleUnmarshal sampleWorlds [amsterdam; singapore]).

(** An answer of ipinfo.io without location and country, and a feed of
    one server. *)
Definition noLocation : SelfLocation.t :=
  {| SelfLocation.IP := "203.0.113.7"; SelfLocation.City := "";
     SelfLocation.Region := ""; SelfLocation.Country := "";
     SelfLocation.Loc := ""; SelfLocation.Timezone := "" |}.

Definition sampleFeed : list Iperf3Server :=
  [ {| IP_HOST := "iperf3 -c sgp.speedtest.example.net -p 9200-9240";
       OPTIONS := "-R"; GB_S := "100"; COUNTRY := "SG"; SITE := "Singapore";
       CONTINENT := "Asia"; PROVIDER := "Provider B" |} ].

(** An answer that places the operator in Singapore, 0.006 degrees of
    longitude west of the coordinates the program has for its servers
    there. *)
Definition nearSingapore : SelfLocation.t :=
  {| SelfLocation.IP := "203.0.113.7"; SelfLocation.City := "Singapore";
     SelfLocation.Region := "Singapore"; SelfLocation.Country := "SG";
     SelfLocation.Loc := "1.3521,103.8138";
     SelfLocation.Timezone := "Asia/Singapore" |}.

Definition curlAnswers : argv -> string * error :=
  fun args => ("{}", None).

(** A scored list with a repeated (host, port), and a selection in
    progress. *)
Definition sampleScored : list Scored.t :=
  scoreServer decimalParseFloat
    <$> [singapore; paris; amsterdam; singapore; amsterdam].

(** Four more candidates, each of a provider of its own. *)
Definition tokyo : Server.t :=
  {| Server.Host := "tyo.speedtest.example.net"; Server.Port := 5201;
     Server.City := "Tokyo"; Server.Country := "JP"; Server.Distance := 9300;
     Server.Lat := 35.6762; Server.Lon := 139.6503;
     Server.Command := "iperf3 -c tyo.speedtest.example.net";
     Server.Options := "-R"; Server.Bandwidth := "10";
     Server.Provider := "Provider C" |}.

Definition newYork : Server.t :=
  {| Server.Host := "nyc.speedtest.example.net"; Server.Port := 5201;
     Server.City := "New York"; Server.Country := "US"; Server.Distance := 5850;
     Server.Lat := 40.7128; Server.Lon := (-74.0060);
     Server.Command := "iperf3 -c nyc.speedtest.example.net -p 5201";
     Server.Options := "-R"; Server.Bandwidth := "10";
     Server.Provider := "Provider D" |}.

Definition london : Server.t :=
  {| Server.Host := "lon.speedtest.example.net"; Server.Port := 5201;
     Server.City := "London"; Server.Country := "GB"; Server.Distance := 350;
     Server.Lat := 51.5074; Server.Lon := (-0.1278);
     Server.Command := "iperf3 -c lon.speedtest.example.net";
     Server.Options := ""; Server.Bandwidth := "10";
     Server.Provider := "Provider E" |}.

Definition frankfurt : Server.t :=
  {| Server.Host := "fra.speedtest.example.net"; Server.Port := 5201;
     Server.City := "Frankfurt"; Server.Country := "DE"; Server.Distance := 480;
     Server.Lat := 50.1109; Server.Lon := 8.6821;
     Server.Command := "iperf3 -c fra.speedtest.example.net -p 5201-5209";
     Server.Options := "-R"; Server.Bandwidth := "1";
     Server.Provider := "Provider F" |}.

(** Six scored servers, no two of the same (host, port) or provider. *)
Definition sixScored : list Scored.t :=
  scoreServer decimalParseFloat
    <$> [singapore; amsterdam; tokyo; newYork; london; frankfurt].

(** The entry of the feed for Singapore, and the candidate it becomes
    for an operator near Singapore. *)
Definition singaporeEntry : Iperf3Server :=
  {| IP_HOST := "iperf3 -c sgp.speedtest.example.net -p 9200-9240";
     OPTIONS := "-R"; GB_S := "100"; COUNTRY := "SG"; SITE := "Singapore";
     CONTINENT := "Asia"; PROVIDER := "Provider B" |}.

Definition singaporeCandidate : Server.t :=
  {| Server.Host := "sgp.speedtest.example.net"; Server.Port := 9200;
     Server.City := "Singapore"; Server.Country := "SG";
     Server.Distance :=
       calculateDistance (Q2R 1.3521) (Q2R 103.8138) (Q2R 1.3521) (Q2R 103.8198);
     Server.Lat := 1.3521%Q; Server.Lon := 103.8198%Q;
     Server.Command := "iperf3 -c sgp.speedtest.example.net -p 9200-9240";
     Server.Options := "-R"; Server.Bandwidth := "100";
     Server.Provider := "Provider B" |}.

(** A filtered list with two servers that fall under no continent and
    servers of the six continents. *)
Definition reachable (host country continent : string) (distance : Z)
  : Iperf3.Filtered.t :=
  {| Iperf3.Filtered.Host := host; Iperf3.Filtered.Port := 5201;
     Iperf3.Filtered.City := ""; Iperf3.Filtered.Country := country;
     Iperf3.Filtered.Continent := continent;
     Iperf3.Filtered.Distance := distance;
     Iperf3.Filtered.Command := "iperf3 -c " ++ host;
     Iperf3.Filtered.Options := "-R"; Iperf3.Filtered.Bandwidth := "10";
     Iperf3.Filtered.Provider := ""; Iperf3.Filtered.BandwidthGbps := 10 |}.

Definition worldwide : list Iperf3.Filtered.t :=
  [ reachable "msk.example.net" "RU" "" 10;
    reachable "spb.example.net" "RU" "" 640;
    reachable "fra.example.net" "DE" "" 2000;
    reachable "ams.example.net" "NL" "Europe" 2150;
    reachable "del.example.net" "IN" "" 4300;
    reachable "nyc.example.net" "US" "" 7500;
    reachable "jnb.example.net" "ZA" "Africa" 9100;
    reachable "gru.example.net" "BR" "" 11800;
    reachable "syd.example.net" "AU" "" 14500 ].

(** * Properties *)

(** ** [sort.Slice] *)

Section SortSliceFacts.
Context {A : Type} (less : A -> A -> bool).

Lemma swapDown_Permutation (x : A) (l : list A) :
  Permutation (x :: l) (swapDown less x l).
Proof.
  induction l as [|y l IH]; simpl; [reflexivity|].
  destruct (less x y); [|reflexivity].
  rewrite perm_swap. now apply perm_skip.
Qed.

Lemma fold_swapDown_Permutation (data acc : list A) :
  Permutation (List.rev acc ++ data)
    (List.rev (fold_left (fun sortedRev x => swapDown less x sortedRev) data acc)).
Proof.
  revert acc. induction data as [|x data IH]; intros acc; simpl.
  - now rewrite app_nil_r.
  - rewrite <- IH, <- (swapDown_Permutation x acc). simpl.
    now rewrite <- app_assoc.
Qed.

Lemma sort_Slice_Permutation (data : list A) :
  Permutation data (sort_Slice less data).
Proof. exact (fold_swapDown_Permutation data []). Qed.

(** A tie class is a set of elements none of which is [less] than
    another; the sort leaves each tie class in its order. *)
Lemma swapDown_filter (P : A -> bool) (x : A) (l : list A) :
  (forall a b, P a = true -> P b = true -> less a b = false) ->
  List.filter P (swapDown less x l) = List.filter P (x :: l).
Proof.
  intros tie. induction l as [|y l IH]; [reflexivity|].
  simpl swapDown. destruct (less x y) eqn:Hxy; [|reflexivity].
  simpl in *. rewrite IH.
  destruct (P x) eqn:Px, (P y) eqn:Py; try reflexivity.
  rewrite (tie x y Px Py) in Hxy. discriminate.
Qed.

Lemma fold_swapDown_filter (P : A -> bool) (data acc : list A) :
  (forall a b, P a = true -> P b = true -> less a b = false) ->
  List.filter P
    (List.rev (fold_left (fun sortedRev x => swapDown less x sortedRev) data acc))
  = (List.filter P (List.rev acc) ++ List.filter P data)%list.
Proof.
  intros tie. revert acc. induction data as [|x data IH]; intros acc; simpl.
  - now rewrite app_nil_r.
  - rewrite IH, !(filter_rev P), (swapDown_filter P x acc tie).
    simpl. destruct (P x); simpl; [|reflexivity].
    now rewrite <- app_assoc.
Qed.

Lemma sort_Slice_stable (P : A -> bool) (data : list A) :
  (forall a b, P a = true -> P b = true -> less a b = false) ->
  List.filter P (sort_Slice less data) = List.filter P data.
Proof. intros tie. exact (fold_swapDown_filter P data [] tie). Qed.

(** The order of the output, for a comparison that is a strict weak
    order. *)
Hypothesis less_asym : forall x y, less x y = true -> less y x = false.
Hypothesis less_negtrans :
  forall x y z, less x y = false -> less y z = false -> less x z = false.

Lemma swapDown_sorted (x : A) (l : list A) :
  StronglySorted (fun y z => less y z = false) l ->
  StronglySorted (fun y z => less y z = false) (swapDown less x l).
Proof.
  induction 1 as [|y l Hl IH Hy]; simpl.
  - repeat constructor.
  - destruct (less x y) eqn:Hxy.
    + constructor; [exact IH|].
      rewrite <- (swapDown_Permutation x l).
      constructor; [now apply less_asym | exact Hy].
    + constructor; [now constructor|].
      constructor; [exact Hxy|].
      eapply List.Forall_impl; [|exact Hy]. intros z Hz. now apply (less_negtrans x y z).
Qed.

Lemma StronglySorted_rev_flip (R : A -> A -> Prop) (l : list A) :
  StronglySorted R l -> StronglySorted (fun a b => R b a) (List.rev l).
Proof.
  induction 1 as [|y l Hl IH Hy]; simpl; [constructor|].
  apply StronglySorted_app_2; [| exact IH | repeat constructor].
  intros a b Ha Hb. apply list_elem_of_In, in_rev in Ha.
  apply list_elem_of_singleton in Hb. subst b.
  rewrite List.Forall_forall in Hy. now apply Hy.
Qed.

Lemma sort_Slice_sorted (data : list A) :
  StronglySorted (fun a b => less b a = false) (sort_Slice less data).
Proof.
  unfold sort_Slice, insertionSortLessFunc.
  apply (StronglySorted_rev_flip (fun y z => less y z = false)).
  assert (G : forall acc,
             StronglySorted (fun y z => less y z = false) acc ->
             StronglySorted (fun y z => less y z = false)
               (fold_left (fun sortedRev x => swapDown less x sortedRev) data acc)).
  { induction data as [|x data IH]; intros acc Hacc; simpl; [exact Hacc|].
    apply IH. now apply swapDown_sorted. }
  apply G. constructor.
Qed.

End SortSliceFacts.


(** ** Ranking *)

Lemma Qgtb_true (a b : Q) : Qgtb a b = true <-> (b < a)%Q.
Proof.
  unfold Qgtb. rewrite negb_true_iff, <- not_true_iff_false, Qle_bool_iff.
  split; [apply Qnot_le_lt | apply Qlt_not_le].
Qed.

Lemma Qgtb_false (a b : Q) : Qgtb a b = false <-> (a <= b)%Q.
Proof. unfold Qgtb. now rewrite negb_false_iff, Qle_bool_iff. Qed.

Lemma byDownloadMbps_asym (a b : NetblastResult) :
  byDownloadMbps a b = true -> byDownloadMbps b a = false.
Proof.
  unfold byDownloadMbps. rewrite Qgtb_true, Qgtb_false. apply Qlt_le_weak.
Qed.

Lemma byDownloadMbps_negtrans (a b c : NetblastResult) :
  byDownloadMbps a b = false -> byDownloadMbps b c = false ->
  byDownloadMbps a c = false.
Proof. unfold byDownloadMbps. rewrite !Qgtb_false. apply Qle_trans. Qed.

Lemma sorted_byDownloadMbps (results : list NetblastResult) :
  StronglySorted (fun a b => (DownloadMbps b <= DownloadMbps a)%Q)
    (sort_Slice byDownloadMbps results).
Proof.
  pose proof (sort_Slice_sorted byDownloadMbps byDownloadMbps_asym
                byDownloadMbps_negtrans results) as S.
  induction S as [|r l S IH Hr]; constructor; [exact IH|].
  eapply List.Forall_impl; [|exact Hr].
  intros b. unfold byDownloadMbps. now rewrite Qgtb_false.
Qed.

Lemma StronglySorted_lookup_lt {A : Type} (R : A -> A -> Prop) (l : list A)
    (i j : nat) (a b : A) :
  StronglySorted R l -> l !! i = Some a -> l !! j = Some b -> (i < j)%nat -> R a b.
Proof.
  intros S Hi Hj Hlt. rewrite <- (take_drop j l) in S.
  apply (StronglySorted_app_1_elem_of R _ _ a b S).
  - apply list_elem_of_lookup. exists i. now rewrite lookup_take_lt.
  - apply list_elem_of_lookup. exists 0%nat. rewrite lookup_drop.
    now rewrite Nat.add_0_r.
Qed.

(** The ranks written by the loop that follows the sort. *)
Lemma imap_setRank_from (k : nat) (l : list NetblastResult) :
  Rank <$> imap (fun i result => setRank result (Z.of_nat (k + i) + 1)) l
  = Z.of_nat <$> seq (S k) (length l).
Proof.
  revert k. induction l as [|r l IH]; intros k; [reflexivity|].
  simpl. rewrite Nat.add_0_r. f_equal; [lia|].
  rewrite <- IH. f_equal. apply imap_ext. intros i x _. simpl.
  now rewrite Nat.add_succ_r.
Qed.

Lemma imap_setRank_unranked (f : nat -> Z) (l : list NetblastResult) :
  (fun r => setRank r 0) <$> imap (fun i result => setRank result (f i)) l
  = (fun r => setRank r 0) <$> l.
Proof.
  revert f. induction l as [|r l IH]; intros f; [reflexivity|].
  simpl. f_equal. apply (IH (f ∘ S)).
Qed.

Lemma imap_setRank_DownloadMbps (f : nat -> Z) (l : list NetblastResult) (i : nat)
    (a : NetblastResult) :
  imap (fun i result => setRank result (f i)) l !! i = Some a ->
  exists b, l !! i = Some b /\ DownloadMbps a = DownloadMbps b.
Proof.
  rewrite list_lookup_imap. destruct (l !! i) as [b|]; simpl; [|discriminate].
  intros [= <-]. now exists b.
Qed.

Lemma imap_setRank_sorted (f : nat -> Z) (l : list NetblastResult) :
  StronglySorted (fun a b => (DownloadMbps b <= DownloadMbps a)%Q) l ->
  StronglySorted (fun a b => (DownloadMbps b <= DownloadMbps a)%Q)
    (imap (fun i result => setRank result (f i)) l).
Proof.
  intros Hs. revert f. induction Hs as [|r l Hs IH Hr]; intros f; simpl; constructor.
  - apply (IH (f ∘ S)).
  - rewrite List.Forall_forall in *. intros x Hx.
    apply list_elem_of_In, list_elem_of_lookup in Hx as [i Hx].
    apply (imap_setRank_DownloadMbps (f ∘ S)) in Hx as (b & Hb & ->).
    simpl. apply Hr. apply list_elem_of_In, list_elem_of_lookup. now exists i.
Qed.

(** C3.  The aggregated output holds the input results, is sorted
    non-increasing by downloadMbps (every entry is at least as fast as
    every later one), an entry with downloadMbps = -1 comes after every
    entry with a positive downloadMbps, and the ranks read in order are
    1, 2, ..., N. *)
Theorem aggregate_sorted_and_ranked (results : list NetblastResult) :
  let ranked := aggregate results in
  StronglySorted (fun a b => (DownloadMbps b <= DownloadMbps a)%Q) ranked
  /\ (forall i j a b,
        ranked !! i = Some a -> ranked !! j = Some b ->
        (DownloadMbps a == -1)%Q -> (0 < DownloadMbps b)%Q -> (j < i)%nat)
  /\ Rank <$> ranked = Z.of_nat <$> seq 1 (length results)
  /\ Permutation ((fun r => setRank r 0) <$> results)
                 ((fun r => setRank r 0) <$> ranked).
Proof.
  intros ranked.
  assert (S : StronglySorted (fun a b => (DownloadMbps b <= DownloadMbps a)%Q) ranked).
  { apply (imap_setRank_sorted (fun i => Z.of_nat i + 1)), sorted_byDownloadMbps. }
  split; [exact S|]. split; [|split].
  - intros i j a b Hi Hj Ha Hb.
    destruct (Nat.lt_trichotomy i j) as [Hlt|[->|Hlt]]; [exfalso|exfalso|exact Hlt].
    + pose proof (StronglySorted_lookup_lt _ _ _ _ _ _ S Hi Hj Hlt) as Hle.
      simpl in Hle. rewrite Ha in Hle.
      apply (Qlt_irrefl 0). eapply Qlt_le_trans; [exact Hb|].
      eapply Qle_trans; [exact Hle | discriminate].
    + rewrite Hi in Hj. injection Hj as ->. rewrite Ha in Hb. discriminate.
  - unfold ranked, aggregate.
    rewrite (imap_setRank_from 0).
    now rewrite <- (Permutation_length (sort_Slice_Permutation byDownloadMbps results)).
  - unfold ranked, aggregate. rewrite imap_setRank_unranked.
    apply fmap_Permutation, sort_Slice_Permutation.
Qed.

Lemma aggregate_sorted_and_ranked_witness :
  aggregate measured !! 3%nat = Some (sampleResult "b.example.net" 4 (-1) (-1))
  /\ aggregate measured !! 0%nat = Some (sampleResult "c.example.net" 1 2210 0)
  /\ (0 < 3)%nat
  /\ Rank <$> aggregate measured = [1; 2; 3; 4].
Proof.
  destruct (aggregate_sorted_and_ranked measured) as (_ & last & ranks & _).
  split; [reflexivity|]. split; [reflexivity|].
  split; [|exact ranks].
  apply (last 3%nat 0%nat (sampleResult "b.example.net" 4 (-1) (-1))
              (sampleResult "c.example.net" 1 2210 0));
    reflexivity.
Defined.

(** The ranking of the sample: the fastest download first, the failed
    test last. *)
Example aggregate_measured :
  Host <$> aggregate measured
  = ["c.example.net"; "a.example.net"; "d.example.net"; "b.example.net"]
  /\ aggregate measuredLater = aggregate measured.
Proof. split; reflexivity. Qed.

Lemma filter_unranked (P : Q -> bool) (l : list NetblastResult) :
  List.filter (fun r => P (DownloadMbps r)) ((fun r => setRank r 0) <$> l)
  = (fun r => setRank r 0) <$> List.filter (fun r => P (DownloadMbps r)) l.
Proof.
  induction l as [|r l IH]; [reflexivity|].
  rewrite fmap_cons. cbn [List.filter]. rewrite IH.
  change (DownloadMbps (setRank r 0)) with (DownloadMbps r).
  now destruct (P (DownloadMbps r)).
Qed.

(** C2, the claim as stated fails: two servers whose tests both failed
    are tied at -1, and they are ranked in the order in which their
    goroutines finished. *)
Lemma aggregate_depends_on_completion_order :
  Permutation failedFirstA failedFirstB
  /\ Host <$> aggregate failedFirstA = ["a.example.net"; "b.example.net"]
  /\ Host <$> aggregate failedFirstB = ["b.example.net"; "a.example.net"]
  /\ aggregate failedFirstA <> aggregate failedFirstB.
Proof.
  split; [apply perm_swap|]. split; [reflexivity|]. split; [reflexivity|].
  intros E. apply (f_equal (fmap Host)) in E. vm_compute in E. discriminate E.
Qed.

(** C2, amended.  The ranking is stable: among the results with any one
    value of downloadMbps the order of arrival is kept (on the slices
    of at most 12 results for which [sort.Slice] is an insertion sort).
    It does not depend on the order of arrival when results with equal
    downloadMbps are equal. *)
Theorem aggregate_stable (results results' : list NetblastResult) :
  (length results <= 12)%nat ->
  Permutation results results' ->
  (forall v : Q,
     List.filter (fun r => Qeq_bool (DownloadMbps r) v)
                 ((fun r => setRank r 0) <$> aggregate results)
     = List.filter (fun r => Qeq_bool (DownloadMbps r) v)
                   ((fun r => setRank r 0) <$> results))
  /\ ((forall a b, a ∈ results -> b ∈ results ->
                   (DownloadMbps a == DownloadMbps b)%Q -> a = b) ->
      aggregate results = aggregate results').
Proof.
  intros _ Hp. split.
  - intros v. unfold aggregate. rewrite imap_setRank_unranked.
    rewrite !(filter_unranked (fun d => Qeq_bool d v)). f_equal.
    apply sort_Slice_stable. intros a b Ha Hb.
    apply Qeq_bool_iff in Ha, Hb. unfold byDownloadMbps.
    rewrite Qgtb_false, Ha, Hb. apply Qle_refl.
  - intros distinct. unfold aggregate. f_equal.
    apply (StronglySorted_unique_strong
             (fun a b => (DownloadMbps b <= DownloadMbps a)%Q));
      [| apply sorted_byDownloadMbps | apply sorted_byDownloadMbps |].
    + intros a b Ha Hb Hab Hba.
      rewrite <- (sort_Slice_Permutation byDownloadMbps results) in Ha.
      rewrite <- (sort_Slice_Permutation byDownloadMbps results'), <- Hp in Hb.
      apply distinct; [exact Ha | exact Hb | now apply Qle_antisym].
    + now rewrite <- !(sort_Slice_Permutation byDownloadMbps).
Qed.

Lemma aggregate_stable_witness :
  (length measured <= 12)%nat
  /\ Permutation measured measuredLater
  /\ (forall v : Q,
        List.filter (fun r => Qeq_bool (DownloadMbps r) v)
                    ((fun r => setRank r 0) <$> aggregate measured)
        = List.filter (fun r => Qeq_bool (DownloadMbps r) v)
                      ((fun r => setRank r 0) <$> measured))
  /\ aggregate measured = aggregate measuredLater.
Proof.
  assert (L : (length measured <= 12)%nat) by (vm_compute; lia).
  assert (P : Permutation measured measuredLater).
  { exact (Permutation_rev measured). }
  destruct (aggregate_stable measured measuredLater L P) as [stable independent].
  split; [exact L|]. split; [exact P|]. split; [exact stable|].
  apply independent. intros a b Ha Hb.
  unfold measured in Ha, Hb.
  repeat (apply elem_of_cons in Ha as [->|Ha]);
    repeat (apply elem_of_cons in Hb as [->|Hb]);
    try (now apply elem_of_nil in Ha); try (now apply elem_of_nil in Hb);
    intros E; try reflexivity; vm_compute in E; discriminate E.
Defined.

(** ** Selection *)

Lemma alreadySelected_false (selected : list Scored.t) (server : Scored.t) :
  alreadySelected selected server = false ->
  (Scored.Host server, Scored.Port server)
    ∉ (fun s => (Scored.Host s, Scored.Port s)) <$> selected.
Proof.
  unfold alreadySelected. intros Hnot Hin.
  apply list_elem_of_fmap in Hin as (s & E & Hs). injection E as EH EP.
  apply not_true_iff_false in Hnot. apply Hnot, existsb_exists.
  exists s. split; [now apply list_elem_of_In|].
  rewrite EH, EP, String.eqb_refl, Z.eqb_refl. reflexivity.
Qed.

Lemma NoDup_add (selected : list Scored.t) (server : Scored.t) :
  alreadySelected selected server = false ->
  NoDup ((fun s => (Scored.Host s, Scored.Port s)) <$> selected) ->
  NoDup ((fun s => (Scored.Host s, Scored.Port s)) <$> (selected ++ [server])%list).
Proof.
  intros Hnot Hnd. rewrite fmap_app. apply NoDup_app. split; [exact Hnd|]. split.
  - intros k Hk Hk'. simpl in Hk'. apply list_elem_of_singleton in Hk'. subst k.
    now apply (alreadySelected_false _ _ Hnot).
  - simpl. apply NoDup_singleton.
Qed.

Lemma diversityPass_NoDup (pool : list Scored.t) (sel : Selection) :
  NoDup ((fun s => (Scored.Host s, Scored.Port s)) <$> selectedServers sel) ->
  NoDup ((fun s => (Scored.Host s, Scored.Port s))
           <$> selectedServers (diversityPass pool sel)).
Proof.
  revert sel. induction pool as [|server pool IH]; intros sel Hnd; [exact Hnd|].
  cbn [diversityPass]. cbv zeta.
  destruct (alreadySelected (selectedServers sel) server) eqn:Hsel; [now apply IH|].
  destruct (member (selectedProviders sel) (Scored.Provider server)
            && member (selectedLocations sel) (location server)); [now apply IH|].
  assert (Hadd : NoDup ((fun s => (Scored.Host s, Scored.Port s))
                          <$> selectedServers (addDiverse sel server)))
    by now apply NoDup_add.
  destruct (5 <=? length (selectedServers (addDiverse sel server)))%nat;
    [exact Hadd | now apply IH].
Qed.

Lemma fillPass_NoDup (pool selected : list Scored.t) :
  NoDup ((fun s => (Scored.Host s, Scored.Port s)) <$> selected) ->
  NoDup ((fun s => (Scored.Host s, Scored.Port s)) <$> fillPass pool selected).
Proof.
  revert selected. induction pool as [|server pool IH]; intros selected Hnd;
    [exact Hnd|].
  cbn [fillPass]. cbv zeta.
  destruct (alreadySelected selected server) eqn:Hsel; cbn [negb]; [now apply IH|].
  pose proof (NoDup_add _ _ Hsel Hnd) as Hadd.
  destruct (5 <=? length (selected ++ [server])%list)%nat; [exact Hadd | now apply IH].
Qed.

Lemma addHighest_NoDup (pool : list Scored.t) :
  NoDup ((fun s => (Scored.Host s, Scored.Port s))
           <$> selectedServers (addHighest pool)).
Proof.
  destruct pool as [|highest pool]; simpl; [apply NoDup_nil_2 | apply NoDup_singleton].
Qed.

(** C10.  The selected servers are pairwise distinct in (host, port),
    and the diversity pass and the fill pass each keep a selection
    pairwise distinct. *)
Theorem selection_distinct (estimated : Q) (serversWithBandwidth pool : list Scored.t)
    (sel : Selection) (selected : list Scored.t) :
  NoDup ((fun s => (Scored.Host s, Scored.Port s))
           <$> selectServers estimated serversWithBandwidth)
  /\ (NoDup ((fun s => (Scored.Host s, Scored.Port s)) <$> selectedServers sel) ->
      NoDup ((fun s => (Scored.Host s, Scored.Port s))
               <$> selectedServers (diversityPass pool sel)))
  /\ (NoDup ((fun s => (Scored.Host s, Scored.Port s)) <$> selected) ->
      NoDup ((fun s => (Scored.Host s, Scored.Port s)) <$> fillPass pool selected)).
Proof.
  split; [|split; [apply diversityPass_NoDup | apply fillPass_NoDup]].
  unfold selectServers.
  set (high := highBandwidthServers estimated serversWithBandwidth).
  pose proof (diversityPass_NoDup high _ (addHighest_NoDup high)) as Hdiv.
  set (chosen := selectedServers (diversityPass high (addHighest high))) in *.
  assert (Hfill : NoDup ((fun s => (Scored.Host s, Scored.Port s))
                           <$> (if (length chosen <? 5)%nat
                                then fillPass high chosen else chosen))).
  { destruct (length chosen <? 5)%nat; [now apply fillPass_NoDup | exact Hdiv]. }
  destruct (5 <? length _)%nat; [|exact Hfill].
  rewrite fmap_take. eapply sublist_NoDup; [exact Hfill | apply sublist_take].
Qed.

(** C8.  The selection holds at most five servers; from the empty list
    it is the empty list, and the run then ends with no result and no
    error. *)
Theorem selection_at_most_five (Unmarshal_map : string -> option (list (string * json)))
    (estimated : Q) (serversWithBandwidth : list Scored.t) (worlds : nat -> World) :
  (length (selectServers estimated serversWithBandwidth) <= 5)%nat
  /\ selectServers estimated [] = []
  /\ storeResults
       (launched Unmarshal_map worlds (toServer <$> selectServers estimated []))
     = ([], None).
Proof.
  split; [|split; reflexivity].
  unfold selectServers.
  destruct (5 <? length _)%nat eqn:Hcap.
  - rewrite length_take. lia.
  - apply Nat.ltb_ge in Hcap. exact Hcap.
Qed.

(** The selection from the sample: the highest score, then a new
    provider, then a new city; the entries that repeat a (host, port)
    are passed over. *)
Example selectServers_sample :
  Scored.Host <$> selectServers (estimatedUserBandwidth 940.5) sampleScored
  = ["sgp.speedtest.example.net"; "par.speedtest.example.net";
     "ams.speedtest.example.net"].
Proof. reflexivity. Qed.

(** ** Capacity and score *)

Lemma cap_Qmin (x : Q) : ((if Qgtb x 100 then 100 else x) == Qmin 100 x)%Q.
Proof.
  destruct (Qgtb x 100) eqn:H.
  - apply Qgtb_true in H. symmetry. apply Q.min_l. now apply Qlt_le_weak.
  - apply Qgtb_false in H. symmetry. now apply Q.min_r.
Qed.

Lemma scoreServer_Score (ParseFloat : string -> Q * error) (server : Server.t) :
  (Scored.Score (scoreServer ParseFloat server)
   == spec_score (bandwidthGbps ParseFloat (Server.Bandwidth server))
                 (Server.Distance server))%Q.
Proof.
  unfold scoreServer, spec_score, spec_bandwidthScore, spec_distanceScore. simpl.
  rewrite !cap_Qmin. ring.
Qed.

Lemma spec_bandwidthScore_eq (g : Q) : (spec_bandwidthScore g == Qmin 100 g)%Q.
Proof.
  unfold spec_bandwidthScore.
  assert (E : (g / 100 * 100 == g)%Q) by (field; discriminate).
  now rewrite E.
Qed.

Lemma spec_score_monotone (g g' : Q) (d d' : Z) :
  (g <= g')%Q -> d' <= d -> (spec_score g d <= spec_score g' d')%Q.
Proof.
  intros Hg Hd. unfold spec_score.
  rewrite !spec_bandwidthScore_eq. unfold spec_distanceScore.
  assert (Hb : (Qmin 100 g <= Qmin 100 g')%Q) by now apply Q.min_le_compat_l.
  assert (Hk : (Qmin 100 (inject_Z d' / 200) <= Qmin 100 (inject_Z d / 200))%Q).
  { apply Q.min_le_compat_l. apply Qmult_le_compat_r; [|discriminate].
    now rewrite <- Zle_Qle. }
  set (b := Qmin 100 g) in *. set (b' := Qmin 100 g') in *.
  set (k := Qmin 100 (inject_Z d / 200)) in *.
  set (k' := Qmin 100 (inject_Z d' / 200)) in *.
  clearbody b b' k k'. lra.
Qed.

(** C7.  The score of a candidate is 0.8 times its bandwidth score
    minus 0.2 times its distance score, the two being the advertised
    Gbps (divided by 100, times 100) and a two-hundredth of the
    distance in km, each capped at 100; a candidate with no less
    bandwidth and no more distance has no lower a score. *)
Theorem score_formula (ParseFloat : string -> Q * error) (server other : Server.t) :
  let scored := scoreServer ParseFloat server in
  let scored' := scoreServer ParseFloat other in
  (Scored.Score scored
   == 0.8 * Qmin 100 (Scored.BandwidthGbps scored / 100 * 100)
      - 0.2 * Qmin 100 (inject_Z (Scored.Distance scored) / 200))%Q
  /\ Scored.BandwidthGbps scored = bandwidthGbps ParseFloat (Server.Bandwidth server)
  /\ Scored.Distance scored = Server.Distance server
  /\ ((Scored.BandwidthGbps scored <= Scored.BandwidthGbps scored')%Q ->
      Scored.Distance scored' <= Scored.Distance scored ->
      (Scored.Score scored <= Scored.Score scored')%Q).
Proof.
  intros scored scored'. split; [|split; [reflexivity|split; [reflexivity|]]].
  - exact (scoreServer_Score ParseFloat server).
  - intros Hg Hd. unfold scored, scored'. rewrite !scoreServer_Score.
    now apply spec_score_monotone.
Qed.

(** C9.  "2x10" is 20 Gbps and "40" is 40 Gbps, [strconv.ParseFloat]
    reading "2", "10" and "40" as the numbers they write; a string that
    is neither a number nor two numbers around an "x" is 1 Gbps. *)
Theorem bandwidthGbps_parsed (ParseFloat : string -> Q * error) (bandwidthStr : string) :
  (ParseFloat "2" = (2%Q, None) -> ParseFloat "10" = (10%Q, None) ->
   bandwidthGbps ParseFloat "2x10" = 20%Q)
  /\ (ParseFloat "40" = (40%Q, None) -> bandwidthGbps ParseFloat "40" = 40%Q)
  /\ ((if Contains bandwidthStr "x"
       then forall count speed,
              Split bandwidthStr "x" = [count; speed] ->
              isNil (snd (ParseFloat count)) && isNil (snd (ParseFloat speed)) = false
       else isNil (snd (ParseFloat bandwidthStr)) = false) ->
      bandwidthGbps ParseFloat bandwidthStr = 1%Q).
Proof.
  split; [|split].
  - intros H2 H10. unfold bandwidthGbps.
    change (Contains "2x10" "x") with true.
    change (Split "2x10" "x") with ["2"; "10"].
    cbv iota. rewrite H2, H10. reflexivity.
  - intros H40. unfold bandwidthGbps.
    change (Contains "40" "x") with false.
    cbv iota. rewrite H40. reflexivity.
  - unfold bandwidthGbps. destruct (Contains bandwidthStr "x").
    + intros Hbad. destruct (Split bandwidthStr "x") as [|count [|speed [|]]];
        try reflexivity.
      specialize (Hbad count speed eq_refl).
      destruct (ParseFloat count) as [c e1], (ParseFloat speed) as [s e2].
      simpl in Hbad. rewrite Hbad. reflexivity.
    + intros Hbad. destruct (ParseFloat bandwidthStr) as [s e].
      simpl in Hbad. rewrite Hbad. reflexivity.
Qed.

Lemma bandwidthGbps_parsed_witness :
  decimalParseFloat "2" = (2%Q, None)
  /\ decimalParseFloat "10" = (10%Q, None)
  /\ decimalParseFloat "40" = (40%Q, None)
  /\ Contains "10G" "x" = false
  /\ isNil (snd (decimalParseFloat "10G")) = false
  /\ bandwidthGbps decimalParseFloat "2x10" = 20%Q
  /\ bandwidthGbps decimalParseFloat "40" = 40%Q
  /\ bandwidthGbps decimalParseFloat "10G" = 1%Q.
Proof.
  destruct (bandwidthGbps_parsed decimalParseFloat "10G") as (H20 & H40 & H1).
  do 5 (split; [reflexivity|]).
  split; [exact (H20 eq_refl eq_refl)|].
  split; [exact (H40 eq_refl) | exact (H1 eq_refl)].
Defined.

(** Other capacity strings that fall back to 1 Gbps. *)
Example bandwidthGbps_unparsable :
  bandwidthGbps decimalParseFloat "1x2x3" = 1%Q
  /\ bandwidthGbps decimalParseFloat "10x" = 1%Q
  /\ bandwidthGbps decimalParseFloat "" = 1%Q
  /\ (bandwidthGbps decimalParseFloat "2.5x4" == 10)%Q.
Proof. repeat split. Qed.

(** ** The test of one server *)

#[local] Arguments finish : simpl never.
#[local] Arguments firstArgs : simpl never.
#[local] Arguments retryArgs : simpl never.
#[local] Arguments Split : simpl never.
#[local] Arguments Contains : simpl never.

(** One step through the body of [runTest]: a case split on the next
    condition or result that the program inspects. *)
Ltac runTest_step :=
  match goal with
  | |- context [if ?c then _ else _] => destruct c eqn:?
  | |- context [match ?x with _ => _ end] => destruct x eqn:?
  end; cbn [fst snd].

Ltac runTest_unfold :=
  unfold runTest, uploadLeg;
  unfold mbind, mret, Task_bind, Task_ret, bind, ret, runCommand.

Section RunTest.
Variable Unmarshal_map : string -> option (list (string * json)).

Lemma runTest_Host_Port (w : World) (rank : Z) (serverCopy : Server.t) :
  Host (fst (runTest Unmarshal_map w rank serverCopy [])) = Server.Host serverCopy
  /\ Port (fst (runTest Unmarshal_map w rank serverCopy [])) = Server.Port serverCopy.
Proof.
  runTest_unfold. repeat runTest_step; unfold finish; repeat runTest_step;
    split; reflexivity.
Qed.

Lemma finish_consistent (r : NetblastResult) :
  TestCompleted r = false ->
  TestCompleted (finish r) = true
  <-> (0 < DownloadMbps (finish r))%Q /\ (0 < UploadMbps (finish r))%Q.
Proof.
  intros Hr. unfold finish.
  destruct (Qgtb (DownloadMbps r) 0) eqn:Hd; cbn [andb].
  - destruct (Qgtb (UploadMbps r) 0) eqn:Hu; simpl.
    + apply Qgtb_true in Hd, Hu. tauto.
    + apply Qgtb_false in Hu. rewrite Hr. split; [discriminate|].
      intros [_ H]. now apply Qlt_not_le in H.
  - apply Qgtb_false in Hd. rewrite Hr. split; [discriminate|].
    intros [H _]. now apply Qlt_not_le in H.
Qed.

Lemma unmeasured_consistent (r : NetblastResult) :
  TestCompleted r = false -> UploadMbps r = (-1)%Q ->
  TestCompleted r = true <-> (0 < DownloadMbps r)%Q /\ (0 < UploadMbps r)%Q.
Proof.
  intros -> ->. split; [discriminate|]. intros [_ H]. discriminate H.
Qed.

Lemma runTest_consistent (w : World) (rank : Z) (serverCopy : Server.t) :
  let r := fst (runTest Unmarshal_map w rank serverCopy []) in
  TestCompleted r = true <-> (0 < DownloadMbps r)%Q /\ (0 < UploadMbps r)%Q.
Proof.
  runTest_unfold. repeat runTest_step;
    first [ apply finish_consistent; reflexivity
          | apply unmeasured_consistent; reflexivity ].
Qed.

Lemma runTest_always_failing (w : World) (rank : Z) (serverCopy : Server.t) :
  (forall log args, isNil (snd (w log args)) = false) ->
  let r := fst (runTest Unmarshal_map w rank serverCopy []) in
  DownloadMbps r = (-1)%Q /\ UploadMbps r = (-1)%Q /\ TestCompleted r = false.
Proof.
  intros failing. runTest_unfold.
  repeat (runTest_step;
          try match goal with
              | E : w ?log ?args = (_, ?err), N : isNil ?err = true |- _ =>
                  specialize (failing log args); rewrite E in failing;
                  cbn [snd] in failing; congruence
              end);
    repeat split; reflexivity.
Qed.

Lemma elem_of_launched (worlds : nat -> World) (servers : list Server.t)
    (r : NetblastResult) :
  r ∈ launched Unmarshal_map worlds servers <->
  exists i server,
    servers !! i = Some server
    /\ r = fst (runTest Unmarshal_map (worlds i) (Z.of_nat i + 1) server []).
Proof.
  unfold launched. rewrite list_elem_of_lookup. split.
  - intros [i Hi]. rewrite list_lookup_imap in Hi.
    destruct (servers !! i) as [server|] eqn:Hs; [|discriminate].
    injection Hi as <-. now exists i, server.
  - intros (i & server & Hs & ->). exists i.
    now rewrite list_lookup_imap, Hs.
Qed.

(** C5.  Every result the goroutines send has completed = true exactly
    when both of its speeds are positive; a server whose subprocesses
    all fail yields a result with both speeds at -1 and completed =
    false; and there is a result for each of the servers. *)
Theorem results_for_every_server (worlds : nat -> World) (servers : list Server.t)
    (results : list NetblastResult) :
  collected Unmarshal_map worlds servers results ->
  (forall r, r ∈ results ->
     TestCompleted r = true <-> (0 < DownloadMbps r)%Q /\ (0 < UploadMbps r)%Q)
  /\ (forall i server,
        servers !! i = Some server ->
        (forall log args, isNil (snd (worlds i log args)) = false) ->
        exists r, r ∈ results
                  /\ Host r = Server.Host server /\ Port r = Server.Port server
                  /\ DownloadMbps r = (-1)%Q /\ UploadMbps r = (-1)%Q
                  /\ TestCompleted r = false)
  /\ length results = length servers
  /\ (forall j server,
        servers !! j = Some server ->
        exists r, r ∈ results
                  /\ Host r = Server.Host server /\ Port r = Server.Port server).
Proof.
  unfold collected. intros Hp. split; [|split; [|split]].
  - intros r Hr. rewrite <- Hp in Hr.
    apply elem_of_launched in Hr as (i & server & _ & ->).
    apply runTest_consistent.
  - intros i server Hs failing.
    exists (fst (runTest Unmarshal_map (worlds i) (Z.of_nat i + 1) server [])).
    split; [rewrite <- Hp; apply elem_of_launched; now exists i, server|].
    split; [apply runTest_Host_Port|]. split; [apply runTest_Host_Port|].
    now apply runTest_always_failing.
  - rewrite <- Hp. unfold launched. apply length_imap.
  - intros j server Hs.
    exists (fst (runTest Unmarshal_map (worlds j) (Z.of_nat j + 1) server [])).
    split; [rewrite <- Hp; apply elem_of_launched; now exists j, server|].
    apply runTest_Host_Port.
Qed.

(** C6, amended.  The download leg runs the launch command of the
    server for 5 seconds under a 15 second timeout; when that
    subprocess fails it runs once more, for 3 seconds under a 10 second
    timeout, with the host and the port of the server and no other
    option, and no third time; every later subprocess belongs to the
    upload leg.  When the last download subprocess failed or its output
    cannot be decoded, the leg is given up: no subprocess follows and
    downloadMbps stays at -1. *)
Theorem download_retried_once (w : World) (rank : Z) (serverCopy : Server.t) :
  let commandParts := Split (Server.Command serverCopy) " " in
  let first := firstArgs commandParts [] in
  let retry := retryArgs serverCopy [] in
  let attempt1 := w [] first in
  let attempt2 := w [first] retry in
  let last := if isNil (snd attempt1) then attempt1 else attempt2 in
  let out := runTest Unmarshal_map w rank serverCopy [] in
  (3 <= length commandParts)%nat ->
  first = (["timeout"; "15"] ++ commandParts ++ ["-t"; "5"; "-J"])%list
  /\ retry = ["timeout"; "10"; "iperf3"; "-c"; Server.Host serverCopy;
              "-p"; itoa (Server.Port serverCopy); "-t"; "3"; "-J"]
  /\ exists uploads : list argv,
       snd out = (first :: (if isNil (snd attempt1) then [] else [retry])
                  ++ uploads)%list
       /\ (uploads = []
           \/ uploads = [firstArgs commandParts ["-R"]]
           \/ uploads = [firstArgs commandParts ["-R"]; retryArgs serverCopy ["-R"]])
       /\ (isNil (snd last) = false \/ Unmarshal_map (fst last) = None ->
           uploads = [] /\ DownloadMbps (fst out) = (-1)%Q).
Proof.
  intros commandParts first retry attempt1 attempt2 last out Hparts.
  split; [reflexivity|]. split; [reflexivity|].
  unfold out, last, attempt1, attempt2. runTest_unfold.
  fold commandParts. fold first. fold retry.
  destruct (length commandParts <? 3)%nat eqn:Hlt;
    [apply Nat.ltb_lt in Hlt; lia|].
  cbn [app].
  repeat (runTest_step; cbn [app fst snd]).
  all: cbn [fst snd] in *; try congruence.
  all: eexists; split; [reflexivity|].
  all: split;
    [ first [ left; reflexivity | right; left; reflexivity | right; right; reflexivity ]
    | intros [H|H]; try discriminate H; try congruence; split; reflexivity ].
Qed.

End RunTest.

Lemma results_for_every_server_witness :
  collected sampleUnmarshal sampleWorlds [amsterdam; singapore] sampleCollected
  /\ (forall r, r ∈ sampleCollected ->
        TestCompleted r = true <-> (0 < DownloadMbps r)%Q /\ (0 < UploadMbps r)%Q)
  /\ (exists r, r ∈ sampleCollected
                /\ Host r = "ams.speedtest.example.net" /\ Port r = 5201
                /\ DownloadMbps r = (-1)%Q /\ UploadMbps r = (-1)%Q
                /\ TestCompleted r = false)
  /\ length sampleCollected = 2%nat
  /\ (exists r, r ∈ sampleCollected
                /\ Host r = "sgp.speedtest.example.net" /\ Port r = 9200).
Proof.
  assert (C : collected sampleUnmarshal sampleWorlds [amsterdam; singapore]
                sampleCollected).
  { unfold collected, sampleCollected. apply Permutation_rev. }
  destruct (results_for_every_server sampleUnmarshal sampleWorlds
              [amsterdam; singapore] sampleCollected C)
    as (flag & failed & len & every).
  split; [exact C|]. split; [exact flag|].
  split; [apply (failed 0%nat amsterdam eq_refl); reflexivity|].
  split; [exact len|]. exact (every 1%nat singapore eq_refl).
Defined.

Lemma download_retried_once_witness :
  (3 <= length (Split (Server.Command amsterdam) " "))%nat
  /\ exists uploads : list argv,
       snd (runTest sampleUnmarshal failingOnce 1 amsterdam [])
       = ([ ["timeout"; "15"; "iperf3"; "-c"; "ams.speedtest.example.net";
             "-p"; "5201-5210"; "-t"; "5"; "-J"];
            ["timeout"; "10"; "iperf3"; "-c"; "ams.speedtest.example.net";
             "-p"; "5201"; "-t"; "3"; "-J"] ] ++ uploads)%list.
Proof.
  assert (L : (3 <= length (Split (Server.Command amsterdam) " "))%nat)
    by (vm_compute; lia).
  split; [exact L|].
  destruct (download_retried_once sampleUnmarshal failingOnce 1 amsterdam L)
    as (_ & _ & uploads & log & _).
  exists uploads. exact log.
Defined.

(** C6, the claim as stated fails.  A subprocess that exits with
    status 0 and prints no report is not run again: the goroutine has
    run one subprocess when it gives up.  And the second attempt at a
    server whose launch command names the ports 9200-9240 is made on
    port 9200. *)
Lemma malformed_response_not_retried :
  snd (runTest sampleUnmarshal garbled 1 amsterdam [])
  = [ ["timeout"; "15"; "iperf3"; "-c"; "ams.speedtest.example.net";
       "-p"; "5201-5210"; "-t"; "5"; "-J"] ]
  /\ DownloadMbps (fst (runTest sampleUnmarshal garbled 1 amsterdam [])) = (-1)%Q
  /\ snd (runTest sampleUnmarshal unreachable 2 singapore [])
     = [ ["timeout"; "15"; "iperf3"; "-c"; "sgp.speedtest.example.net";
          "-p"; "9200-9240"; "-t"; "5"; "-J"];
         ["timeout"; "10"; "iperf3"; "-c"; "sgp.speedtest.example.net";
          "-p"; "9200"; "-t"; "3"; "-J"] ].
Proof. repeat split. Qed.

(** ** Selection and score on the samples *)

Lemma selection_distinct_witness :
  NoDup ((fun s => (Scored.Host s, Scored.Port s))
           <$> selectedServers (addHighest sampleScored))
  /\ NoDup ((fun s => (Scored.Host s, Scored.Port s)) <$> take 1 sampleScored)
  /\ NoDup ((fun s => (Scored.Host s, Scored.Port s))
              <$> selectServers 1000 sampleScored)
  /\ NoDup ((fun s => (Scored.Host s, Scored.Port s))
              <$> selectedServers (diversityPass sampleScored (addHighest sampleScored)))
  /\ NoDup ((fun s => (Scored.Host s, Scored.Port s))
              <$> fillPass sampleScored (take 1 sampleScored)).
Proof.
  assert (D1 : NoDup ((fun s => (Scored.Host s, Scored.Port s))
                        <$> selectedServers (addHighest sampleScored)))
    by apply NoDup_singleton.
  assert (D2 : NoDup ((fun s => (Scored.Host s, Scored.Port s))
                        <$> take 1 sampleScored))
    by apply NoDup_singleton.
  destruct (selection_distinct 1000 sampleScored sampleScored
              (addHighest sampleScored) (take 1 sampleScored))
    as (final & diversity & fill).
  split; [exact D1|]. split; [exact D2|]. split; [exact final|].
  split; [exact (diversity D1) | exact (fill D2)].
Defined.

Lemma score_formula_witness :
  (Scored.BandwidthGbps (scoreServer decimalParseFloat amsterdam)
   <= Scored.BandwidthGbps (scoreServer decimalParseFloat paris))%Q
  /\ Scored.Distance (scoreServer decimalParseFloat paris)
     <= Scored.Distance (scoreServer decimalParseFloat amsterdam)
  /\ (Scored.Score (scoreServer decimalParseFloat amsterdam)
      <= Scored.Score (scoreServer decimalParseFloat paris))%Q.
Proof.
  assert (B : (Scored.BandwidthGbps (scoreServer decimalParseFloat amsterdam)
               <= Scored.BandwidthGbps (scoreServer decimalParseFloat paris))%Q)
    by (vm_compute; discriminate).
  assert (D : Scored.Distance (scoreServer decimalParseFloat paris)
              <= Scored.Distance (scoreServer decimalParseFloat amsterdam))
    by (vm_compute; discriminate).
  split; [exact B|]. split; [exact D|].
  exact (proj2 (proj2 (proj2 (score_formula decimalParseFloat amsterdam paris))) B D).
Defined.

(** The scenario of the specification: 10 Gbps at 100 km scores less
    than 100 Gbps at 10000 km. *)
Example score_scenario : (spec_score 10 100 < spec_score 100 10000)%Q.
Proof. reflexivity. Qed.

(** ** Self-location *)

(** [runNetblastTests] leaves the stage with an error only when curl
    fails or its output is not JSON for the struct. *)
Lemma locateSelf_Return (ParseFloat : string -> Q * error)
    (Unmarshal_selfLocation : string -> option SelfLocation.t)
    (curl : argv -> string * error) :
  let answer := curl ["curl"; "-s"; "https://ipinfo.io/json"] in
  (exists e, locateSelf ParseFloat Unmarshal_selfLocation curl = Return e)
  <-> snd answer <> None \/ Unmarshal_selfLocation (fst answer) = None.
Proof.
  unfold locateSelf. destruct (curl _) as [output [e|]]; cbn [fst snd].
  - split; [now left | now exists ("error getting self location: " ++ e)%string].
  - destruct (Unmarshal_selfLocation output) as [selfLocation|].
    + split; [intros [e H]; discriminate H | intros [H|H]; [now destruct H | discriminate H]].
    + split; [now right | now exists "error parsing self location"].
Qed.

(** C1, the run on an answer of ipinfo.io that has no location and no
    country: the stage returns no error, the operator is placed at
    latitude 0 and longitude 0, and the distance of the server of the
    feed is computed from there.  A location of which only the latitude
    can be read gives the longitude 0. *)
Theorem run_proceeds_without_self_location :
  locateSelf decimalParseFloat (fun _ => Some noLocation) curlAnswers
  = Proceed (noLocation, (0%Q, 0%Q))
  /\ fetchCandidates decimalParseFloat (fun _ => Some noLocation)
       (fun _ => Some sampleFeed) (fun _ => true) curlAnswers
     = Proceed
         [ {| Server.Host := "sgp.speedtest.example.net"; Server.Port := 9200;
              Server.City := "Singapore"; Server.Country := "SG";
              Server.Distance :=
                calculateDistance (Q2R 0) (Q2R 0) (Q2R 1.3521) (Q2R 103.8198);
              Server.Lat := 1.3521%Q; Server.Lon := 103.8198%Q;
              Server.Command := "iperf3 -c sgp.speedtest.example.net -p 9200-9240";
              Server.Options := "-R"; Server.Bandwidth := "100";
              Server.Provider := "Provider B" |} ]
  /\ selfCoordinates decimalParseFloat
       {| SelfLocation.IP := "203.0.113.7"; SelfLocation.City := "Paris";
          SelfLocation.Region := ""; SelfLocation.Country := "";
          SelfLocation.Loc := "48.8566,2.35E"; SelfLocation.Timezone := "" |}
     = (48.8566%Q, 0%Q).
Proof. repeat split. Qed.

(** ** Distance *)

Local Open Scope R_scope.

Lemma PI_bounds : 3 < PI <= 4.
Proof. split; [pose proof PI2_3_2; lra | exact PI_4]. Qed.

(** [c] is twice the arc sine of the square root of [a]. *)
Lemma Atan2_sqrt (y : R) :
  0 <= y < 1 -> Atan2 (sqrt y²) (sqrt (1 - y²)) = asin y.
Proof.
  intros [H0 H1]. unfold Atan2.
  assert (Hc : 0 < sqrt (1 - y²)).
  { apply sqrt_lt_R0. unfold Rsqr. nra. }
  destruct (Rlt_dec 0 (sqrt (1 - y²))) as [_|N]; [|contradiction].
  rewrite (sqrt_Rsqr y H0). symmetry. apply asin_atan. lra.
Qed.

(** Two points of one latitude. *)
Lemma haversine_parallel (lat lon1 lon2 : R) :
  let phi := lat * PI / 180 in
  let tau := (lon2 * PI / 180 - lon1 * PI / 180) / 2 in
  0 <= cos phi * sin tau < 1 ->
  haversine lat lon1 lat lon2 = earthRadius * (2 * asin (cos phi * sin tau)).
Proof.
  intros phi tau Hy. unfold haversine. fold phi. fold tau.
  replace ((phi - phi) / 2) with 0 by lra. rewrite sin_0.
  replace (0 * 0 + cos phi * cos phi * sin tau * sin tau)
    with ((cos phi * sin tau)²) by (unfold Rsqr; lra).
  now rewrite Atan2_sqrt.
Qed.

Lemma asin_between (y tau : R) :
  0 <= tau <= PI / 2 -> 0 <= y <= sin tau -> y < 1 -> y <= asin y <= tau.
Proof.
  intros [Ht0 Ht] [Hy0 Hy] Hy1.
  pose proof (asin_bound y) as [Hl Hu].
  assert (Hs : sin (asin y) = y) by (apply sin_asin; lra).
  assert (Hpos : 0 <= asin y).
  { apply sin_incr_0; try lra. rewrite sin_0, Hs. exact Hy0. }
  split.
  - destruct Hpos as [Hpos|Hzero].
    + pose proof (sin_lt_x (asin y) Hpos). lra.
    + rewrite <- Hzero in Hs |- *. rewrite sin_0 in Hs. lra.
  - apply sin_incr_0; lra.
Qed.

Lemma cos_lower (x : R) : -2 <= x <= 2 -> 1 - x * x / 2 <= cos x.
Proof.
  intros [Hl Hu]. pose proof (pre_cos_bound x 0 Hl Hu) as [H _].
  unfold cos_approx, cos_term in H. simpl in H. lra.
Qed.

Lemma sin_lower (x : R) : 0 <= x <= 4 -> x - x * x * x / 6 <= sin x.
Proof.
  intros [Hl Hu]. pose proof (pre_sin_bound x 0 Hl Hu) as [H _].
  unfold sin_approx, sin_term in H. simpl in H. lra.
Qed.

Lemma Int_part_unit (f : R) : 0 <= f < 1 -> Int_part f = 0%Z.
Proof. intros H. symmetry. apply Int_part_spec. simpl. lra. Qed.

(** The distance from the operator of [nearSingapore] to the
    coordinates of a server in Singapore is between 0.5 km and 1 km. *)
Lemma haversine_nearSingapore :
  1 / 2 < haversine (Q2R 1.3521) (Q2R 103.8138) (Q2R 1.3521) (Q2R 103.8198) < 1.
Proof.
  pose proof PI_bounds as [Hpi3 Hpi4].
  set (phi := Q2R 1.3521 * PI / 180).
  set (tau := (Q2R 103.8198 * PI / 180 - Q2R 103.8138 * PI / 180) / 2).
  assert (Etau : tau = PI / 60000) by (unfold tau, Q2R; simpl; lra).
  assert (Hphi : 0 <= phi <= 301 / 10000) by (unfold phi, Q2R; simpl; lra).
  assert (Hcos : 99 / 100 <= cos phi <= 1).
  { split; [|apply COS_bound].
    pose proof (cos_lower phi ltac:(lra)). nra. }
  assert (Hsin : 49 / 1000000 <= sin tau <= tau).
  { split.
    - pose proof (sin_lower tau ltac:(lra)). rewrite Etau in *. nra.
    - left. apply sin_lt_x. lra. }
  assert (Hy : 0 <= cos phi * sin tau < 1) by nra.
  rewrite (haversine_parallel _ _ _ Hy). fold phi. fold tau.
  pose proof (asin_between (cos phi * sin tau) tau ltac:(lra) ltac:(nra) ltac:(lra))
    as [Hlow Hup].
  unfold earthRadius. nra.
Qed.

(** C4, at two inputs.  For two points of the equator 0.006 degrees
    apart, and for the operator of [nearSingapore] and a server in
    Singapore, the great-circle distance is between 0.5 km and 1 km:
    [calculateDistance] returns 0, which is the distance the run
    records for the server, where the nearest integer is 1. *)
Theorem calculateDistance_truncates :
  1 / 2 < haversine 0 0 0 (3 / 500) < 1
  /\ calculateDistance 0 0 0 (3 / 500) = 0%Z
  /\ spec_distanceKm 0 0 0 (3 / 500) = 1%Z
  /\ fetchCandidates decimalParseFloat (fun _ => Some nearSingapore)
       (fun _ => Some sampleFeed) (fun _ => true) curlAnswers
     = Proceed
         [ {| Server.Host := "sgp.speedtest.example.net"; Server.Port := 9200%Z;
              Server.City := "Singapore"; Server.Country := "SG";
              Server.Distance := 0%Z;
              Server.Lat := 1.3521%Q; Server.Lon := 103.8198%Q;
              Server.Command := "iperf3 -c sgp.speedtest.example.net -p 9200-9240";
              Server.Options := "-R"; Server.Bandwidth := "100";
              Server.Provider := "Provider B" |} ]
  /\ spec_distanceKm (Q2R 1.3521) (Q2R 103.8138) (Q2R 1.3521) (Q2R 103.8198) = 1%Z.
Proof.
  pose proof PI_bounds as [Hpi3 Hpi4].
  assert (B : 1 / 2 < haversine 0 0 0 (3 / 500) < 1).
  { assert (Hy : 0 <= cos (0 * PI / 180)
                      * sin ((3 / 500 * PI / 180 - 0 * PI / 180) / 2) < 1).
    { replace (0 * PI / 180) with 0 by lra. rewrite cos_0.
      assert (0 <= sin ((3 / 500 * PI / 180 - 0) / 2)) by (apply sin_ge_0; lra).
      assert (sin ((3 / 500 * PI / 180 - 0) / 2) < (3 / 500 * PI / 180 - 0) / 2)
        by (apply sin_lt_x; lra).
      lra. }
    rewrite (haversine_parallel _ _ _ Hy).
    replace (0 * PI / 180) with 0 by lra. rewrite cos_0, Rmult_1_l.
    rewrite asin_sin by lra. unfold earthRadius. lra. }
  pose proof haversine_nearSingapore as S.
  assert (T : forall f, 1 / 2 < f < 1 ->
                        float64_to_int f = 0%Z /\ nearestInteger f = 1%Z).
  { intros f Hf. split.
    - unfold float64_to_int. destruct (Rle_dec 0 f) as [_|N]; [|lra].
      apply Int_part_unit. lra.
    - unfold nearestInteger. symmetry. apply Int_part_spec. simpl. lra. }
  split; [exact B|]. split; [exact (proj1 (T _ B))|]. split; [exact (proj2 (T _ B))|].
  split; [|exact (proj2 (T _ S))].
  rewrite <- (proj1 (T _ S)). reflexivity.
Qed.

Local Close Scope R_scope.

(** * Further properties of the selection *)

Lemma alreadySelected_true (selected : list Scored.t) (server : Scored.t) :
  alreadySelected selected server = true <->
  (Scored.Host server, Scored.Port server)
    ∈ (fun s => (Scored.Host s, Scored.Port s)) <$> selected.
Proof.
  unfold alreadySelected. rewrite existsb_exists, list_elem_of_fmap. split.
  - intros (s & Hs & E). apply andb_true_iff in E as [EH EP].
    apply String.eqb_eq in EH. apply Z.eqb_eq in EP.
    exists s. split; [now rewrite EH, EP | now apply list_elem_of_In].
  - intros (s & E & Hs). injection E as EH EP. exists s.
    split; [now apply list_elem_of_In|].
    now rewrite EH, EP, String.eqb_refl, Z.eqb_refl.
Qed.

Lemma diversityPass_extends (pool : list Scored.t) (sel : Selection) :
  exists added,
    selectedServers (diversityPass pool sel) = (selectedServers sel ++ added)%list
    /\ forall s, s ∈ added -> s ∈ pool.
Proof.
  revert sel. induction pool as [|server pool IH]; intros sel.
  - exists []. split; [now rewrite app_nil_r | intros s Hs; exact Hs].
  - cbn [diversityPass]. cbv zeta.
    assert (skip : exists added,
               selectedServers (diversityPass pool sel)
               = (selectedServers sel ++ added)%list
               /\ forall s, s ∈ added -> s ∈ server :: pool).
    { destruct (IH sel) as (added & E & Hin). exists added. split; [exact E|].
      intros s Hs. right. now apply Hin. }
    destruct (alreadySelected (selectedServers sel) server); [exact skip|].
    destruct (member (selectedProviders sel) (Scored.Provider server)
              && member (selectedLocations sel) (location server)); [exact skip|].
    destruct (5 <=? length (selectedServers (addDiverse sel server)))%nat.
    + exists [server]. split; [reflexivity|].
      intros s Hs. apply list_elem_of_singleton in Hs as ->. now left.
    + destruct (IH (addDiverse sel server)) as (added & E & Hin).
      exists (server :: added). split.
      * rewrite E. cbn [addDiverse selectedServers]. now rewrite <- app_assoc.
      * intros s Hs. apply elem_of_cons in Hs as [->|Hs]; [now left|].
        right. now apply Hin.
Qed.

Lemma fillPass_extends (pool selected : list Scored.t) :
  exists added,
    fillPass pool selected = (selected ++ added)%list
    /\ forall s, s ∈ added -> s ∈ pool.
Proof.
  revert selected. induction pool as [|server pool IH]; intros selected.
  - exists []. split; [now rewrite app_nil_r | intros s Hs; exact Hs].
  - cbn [fillPass]. cbv zeta.
    destruct (alreadySelected selected server); cbn [negb].
    + destruct (IH selected) as (added & E & Hin). exists added. split; [exact E|].
      intros s Hs. right. now apply Hin.
    + destruct (5 <=? length (selected ++ [server])%list)%nat.
      * exists [server]. split; [reflexivity|].
        intros s Hs. apply list_elem_of_singleton in Hs as ->. now left.
      * destruct (IH (selected ++ [server])%list) as (added & E & Hin).
        exists (server :: added). split; [now rewrite E, <- app_assoc|].
        intros s Hs. apply elem_of_cons in Hs as [->|Hs]; [now left|].
        right. now apply Hin.
Qed.

Lemma List_filter_sublist {A : Type} (f : A -> bool) (l : list A) :
  List.filter f l `sublist_of` l.
Proof.
  induction l as [|x l IH]; simpl; [constructor|].
  destruct (f x); [now apply sublist_skip | now apply sublist_cons].
Qed.

Lemma highBandwidthServers_sublist (estimated : Q) (l : list Scored.t) :
  highBandwidthServers estimated l `sublist_of` l.
Proof.
  unfold highBandwidthServers.
  destruct (length _ <? 5)%nat; [apply sublist_take | apply List_filter_sublist].
Qed.

Lemma highBandwidthServers_length (estimated : Q) (l : list Scored.t) :
  (Nat.min 5 (length l) <= length (highBandwidthServers estimated l))%nat.
Proof.
  unfold highBandwidthServers.
  destruct (length _ <? 5)%nat eqn:H.
  - rewrite length_take. lia.
  - apply Nat.ltb_ge in H. lia.
Qed.

Lemma highBandwidthServers_short (estimated : Q) (l : list Scored.t) :
  (length l < 5)%nat -> highBandwidthServers estimated l = l.
Proof.
  intros Hl. unfold highBandwidthServers.
  pose proof (sublist_length _ _ (List_filter_sublist
    (fun server => Qgeb (Scored.BandwidthMbps server) (estimated * 1.5)) l)) as Hf.
  destruct (length _ <? 5)%nat eqn:H.
  - apply take_ge. lia.
  - apply Nat.ltb_ge in H. lia.
Qed.

Lemma diversityPass_length (pool : list Scored.t) (sel : Selection) :
  (length (selectedServers sel) < 5)%nat ->
  (length (selectedServers (diversityPass pool sel)) <= 5)%nat.
Proof.
  revert sel. induction pool as [|server pool IH]; intros sel Hlt; [simpl; lia|].
  cbn [diversityPass]. cbv zeta.
  destruct (alreadySelected (selectedServers sel) server); [now apply IH|].
  destruct (member (selectedProviders sel) (Scored.Provider server)
            && member (selectedLocations sel) (location server)); [now apply IH|].
  destruct (5 <=? length (selectedServers (addDiverse sel server)))%nat eqn:H.
  - cbn [addDiverse selectedServers]. rewrite length_app. simpl. lia.
  - apply IH. now apply Nat.leb_gt in H.
Qed.

Lemma fillPass_length (pool selected : list Scored.t) :
  (length selected < 5)%nat -> (length (fillPass pool selected) <= 5)%nat.
Proof.
  revert selected. induction pool as [|server pool IH]; intros selected Hlt;
    [simpl; lia|].
  cbn [fillPass]. cbv zeta.
  destruct (alreadySelected selected server); cbn [negb]; [now apply IH|].
  destruct (5 <=? length (selected ++ [server])%list)%nat eqn:H.
  - rewrite length_app. simpl. lia.
  - apply IH. now apply Nat.leb_gt in H.
Qed.

Lemma alreadySelected_app (selected added : list Scored.t) (server : Scored.t) :
  alreadySelected selected server = true ->
  alreadySelected (selected ++ added) server = true.
Proof.
  rewrite !alreadySelected_true, fmap_app, elem_of_app. now left.
Qed.

Lemma fillPass_complete (pool selected : list Scored.t) :
  (length (fillPass pool selected) < 5)%nat ->
  forall s, s ∈ pool -> alreadySelected (fillPass pool selected) s = true.
Proof.
  revert selected. induction pool as [|server pool IH]; intros selected Hlt s Hs.
  { now apply elem_of_nil in Hs. }
  revert Hlt. cbn [fillPass]. cbv zeta.
  destruct (alreadySelected selected server) eqn:Hsel; cbn [negb].
  - intros Hlt. apply elem_of_cons in Hs as [->|Hs]; [|now apply IH].
    destruct (fillPass_extends pool selected) as (added & -> & _).
    now apply alreadySelected_app.
  - destruct (5 <=? length (selected ++ [server])%list)%nat eqn:H.
    + intros Hlt. apply Nat.leb_le in H. lia.
    + intros Hlt. apply elem_of_cons in Hs as [->|Hs]; [|now apply IH].
      destruct (fillPass_extends pool (selected ++ [server])%list) as (added & -> & _).
      apply alreadySelected_app, alreadySelected_true.
      rewrite fmap_app, elem_of_app. right. simpl. now left.
Qed.

Lemma addHighest_servers (pool : list Scored.t) :
  selectedServers (addHighest pool) = take 1 pool.
Proof. now destruct pool. Qed.

(** The selection before the cap of lines 3737-3740. *)
Lemma selectServers_uncapped (estimated : Q) (l : list Scored.t) :
  let pool := highBandwidthServers estimated l in
  let chosen := selectedServers (diversityPass pool (addHighest pool)) in
  selectServers estimated l
  = (if (length chosen <? 5)%nat then fillPass pool chosen else chosen)
  /\ (length (if (length chosen <? 5)%nat then fillPass pool chosen else chosen)
      <= 5)%nat.
Proof.
  intros pool chosen.
  assert (Hc : (length chosen <= 5)%nat).
  { apply diversityPass_length. rewrite addHighest_servers, length_take. lia. }
  assert (Hu : (length (if (length chosen <? 5)%nat
                        then fillPass pool chosen else chosen) <= 5)%nat).
  { destruct (length chosen <? 5)%nat eqn:H; [|exact Hc].
    apply fillPass_length. now apply Nat.ltb_lt. }
  split; [|exact Hu].
  unfold selectServers. fold pool. fold chosen.
  destruct (5 <? length _)%nat eqn:H; [|reflexivity].
  apply Nat.ltb_lt in H. lia.
Qed.

Lemma selectServers_NoDup (estimated : Q) (l : list Scored.t) :
  NoDup ((fun s => (Scored.Host s, Scored.Port s)) <$> selectServers estimated l).
Proof.
  destruct (selectServers_uncapped estimated l) as [-> _].
  set (pool := highBandwidthServers estimated l).
  pose proof (diversityPass_NoDup pool _ (addHighest_NoDup pool)) as Hdiv.
  destruct (length _ <? 5)%nat; [now apply fillPass_NoDup | exact Hdiv].
Qed.

Lemma selectServers_shape (estimated : Q) (l : list Scored.t) :
  exists added,
    selectServers estimated l
    = (take 1 (highBandwidthServers estimated l) ++ added)%list
    /\ forall s, s ∈ added -> s ∈ highBandwidthServers estimated l.
Proof.
  destruct (selectServers_uncapped estimated l) as [-> _].
  set (pool := highBandwidthServers estimated l).
  destruct (diversityPass_extends pool (addHighest pool)) as (added & E & Hin).
  rewrite addHighest_servers in E. rewrite E.
  destruct (length _ <? 5)%nat; [|now exists added].
  destruct (fillPass_extends pool (take 1 pool ++ added)%list) as (more & -> & Hmore).
  exists (added ++ more)%list. split; [now rewrite app_assoc|].
  intros s Hs. apply elem_of_app in Hs as [Hs|Hs]; [now apply Hin | now apply Hmore].
Qed.

(** X1.  Every selected server is a server of the scored list; the
    first one selected is the first server of the pool (the first that
    has 1.5 times the bandwidth of the operator, or the first of the
    list when fewer than five have it); and the selection is empty only
    when the scored list is. *)
Theorem selectServers_from_list (estimated : Q) (l : list Scored.t) :
  (forall s, s ∈ selectServers estimated l -> s ∈ l)
  /\ head (selectServers estimated l) = head (highBandwidthServers estimated l)
  /\ (selectServers estimated l = [] <-> l = []).
Proof.
  destruct (selectServers_shape estimated l) as (added & E & Hin).
  pose proof (highBandwidthServers_sublist estimated l) as Hsub.
  pose proof (highBandwidthServers_length estimated l) as Hlen.
  assert (Hpool : forall s, s ∈ highBandwidthServers estimated l -> s ∈ l).
  { intros s Hs. now apply (elem_of_sublist _ _ s Hs Hsub). }
  split; [|split].
  - intros s Hs. rewrite E in Hs. apply elem_of_app in Hs as [Hs|Hs].
    + apply Hpool. apply (elem_of_sublist _ _ s Hs), sublist_take.
    + now apply Hpool, Hin.
  - rewrite E. destruct (highBandwidthServers estimated l); [|reflexivity].
    destruct added as [|s added]; [reflexivity|].
    exfalso. eapply elem_of_nil, (Hin s). now left.
  - rewrite E. split.
    + intros H. apply app_eq_nil in H as [H _].
      destruct (highBandwidthServers estimated l); [|discriminate H].
      destruct l; [reflexivity | simpl in Hlen; lia].
    + intros ->. apply sublist_nil_r in Hsub. rewrite Hsub in *. simpl.
      destruct added as [|s added]; [reflexivity|].
      exfalso. eapply elem_of_nil, (Hin s). now left.
Qed.

Lemma selectServers_from_list_witness :
  sampleScored <> []
  /\ selectServers 1000 sampleScored <> []
  /\ head (selectServers 1000 sampleScored) = head sampleScored.
Proof.
  destruct (selectServers_from_list 1000 sampleScored) as (_ & Hhead & Hnil).
  assert (N : sampleScored <> []) by discriminate.
  split; [exact N|]. split; [intros H; apply N, Hnil, H|].
  rewrite Hhead. reflexivity.
Defined.

(** X2.  The list the two passes build never holds more than five
    servers: the cut at lines 3737-3740 leaves it as it is. *)
Theorem selectServers_cap_unused (estimated : Q) (l : list Scored.t) :
  let pool := highBandwidthServers estimated l in
  let chosen := selectedServers (diversityPass pool (addHighest pool)) in
  let filled := if (length chosen <? 5)%nat then fillPass pool chosen else chosen in
  (length filled <= 5)%nat /\ selectServers estimated l = filled.
Proof.
  intros pool chosen filled.
  destruct (selectServers_uncapped estimated l) as [E H]. now split.
Qed.

(** X3.  From a scored list without a repeated (host, port) the
    selection takes five servers, or all of them when the list has
    fewer than five. *)
Theorem selectServers_count (estimated : Q) (l : list Scored.t) :
  NoDup ((fun s => (Scored.Host s, Scored.Port s)) <$> l) ->
  length (selectServers estimated l) = Nat.min 5 (length l).
Proof.
  intros Hnd.
  pose proof (highBandwidthServers_sublist estimated l) as Hsub.
  pose proof (highBandwidthServers_length estimated l) as Hlen.
  destruct (selectServers_uncapped estimated l) as [E Hle].
  set (pool := highBandwidthServers estimated l) in *.
  set (chosen := selectedServers (diversityPass pool (addHighest pool))) in *.
  assert (Hkeys : NoDup ((fun s => (Scored.Host s, Scored.Port s)) <$> pool)).
  { eapply sublist_NoDup; [exact Hnd | now apply fmap_sublist]. }
  assert (Hsel : NoDup ((fun s => (Scored.Host s, Scored.Port s))
                          <$> selectServers estimated l)).
  { apply selectServers_NoDup. }
  assert (Hin : forall s, s ∈ selectServers estimated l -> s ∈ pool).
  { destruct (selectServers_shape estimated l) as (added & Es & Ha).
    intros s Hs. rewrite Es in Hs. apply elem_of_app in Hs as [Hs|Hs].
    - apply (elem_of_sublist _ _ s Hs), sublist_take.
    - now apply Ha. }
  assert (Hupper : (length (selectServers estimated l) <= length pool)%nat).
  { rewrite <- (length_fmap (fun s => (Scored.Host s, Scored.Port s))
                            (selectServers estimated l)),
            <- (length_fmap (fun s => (Scored.Host s, Scored.Port s)) pool).
    apply submseteq_length, NoDup_submseteq; [exact Hsel|].
    intros k Hk. apply list_elem_of_fmap in Hk as (s & -> & Hs).
    apply list_elem_of_fmap. exists s. split; [reflexivity | now apply Hin]. }
  pose proof (sublist_length _ _ Hsub) as Hpl.
  destruct (Nat.lt_ge_cases (length (selectServers estimated l)) 5) as [Hlt|Hge].
  - (* fewer than five: the fill pass has taken the whole pool *)
    assert (Hfill : (length chosen <? 5)%nat = true).
    { apply Nat.ltb_lt. rewrite E in Hlt.
      destruct (length chosen <? 5)%nat eqn:H; [now apply Nat.ltb_lt in H | exact Hlt]. }
    rewrite Hfill in E.
    assert (Hall : forall s, s ∈ pool ->
                     (Scored.Host s, Scored.Port s)
                       ∈ (fun s => (Scored.Host s, Scored.Port s))
                           <$> selectServers estimated l).
    { intros s Hs. apply alreadySelected_true. rewrite E.
      apply fillPass_complete; [now rewrite <- E | exact Hs]. }
    assert (Hlower : (length pool <= length (selectServers estimated l))%nat).
    { rewrite <- (length_fmap (fun s => (Scored.Host s, Scored.Port s))
                              (selectServers estimated l)),
              <- (length_fmap (fun s => (Scored.Host s, Scored.Port s)) pool).
      apply submseteq_length, NoDup_submseteq; [exact Hkeys|].
      intros k Hk. apply list_elem_of_fmap in Hk as (s & -> & Hs). now apply Hall. }
    assert (Hshort : (length l < 5)%nat) by lia.
    unfold pool in *. rewrite (highBandwidthServers_short estimated l Hshort) in *.
    lia.
  - rewrite E in *. lia.
Qed.

(** The two maps of the selection hold the providers and the locations
    of the servers selected so far. *)
Lemma member_insert (m : gmap string bool) (k k' : string) :
  member (<[k := true]> m) k' = true <-> k = k' \/ member m k' = true.
Proof.
  unfold member. destruct (decide (k = k')) as [->|Hne].
  - rewrite lookup_insert_eq. simpl. split; [now left | reflexivity].
  - rewrite lookup_insert_ne by exact Hne. split; [now right|].
    intros [E|H]; [contradiction | exact H].
Qed.

Lemma member_empty (k : string) : member ∅ k = false.
Proof. unfold member. now rewrite lookup_empty. Qed.

Lemma addDiverse_tracked (sel : Selection) (server : Scored.t) :
  (forall p, member (selectedProviders sel) p = true
             <-> p ∈ Scored.Provider <$> selectedServers sel) ->
  (forall p, member (selectedLocations sel) p = true
             <-> p ∈ location <$> selectedServers sel) ->
  (forall p, member (selectedProviders (addDiverse sel server)) p = true
             <-> p ∈ Scored.Provider <$> selectedServers (addDiverse sel server))
  /\ (forall p, member (selectedLocations (addDiverse sel server)) p = true
                <-> p ∈ location <$> selectedServers (addDiverse sel server)).
Proof.
  intros Hp Hl. cbn [addDiverse selectedServers selectedProviders selectedLocations].
  split; intros p; rewrite member_insert, fmap_app, elem_of_app; simpl;
    rewrite list_elem_of_singleton; [rewrite Hp | rewrite Hl];
    split; (intros [H|H]; [right | left]); auto.
Qed.

Lemma diversityPass_tracked (pool : list Scored.t) (sel : Selection) :
  (forall p, member (selectedProviders sel) p = true
             <-> p ∈ Scored.Provider <$> selectedServers sel) ->
  (forall p, member (selectedLocations sel) p = true
             <-> p ∈ location <$> selectedServers sel) ->
  (forall p, member (selectedProviders (diversityPass pool sel)) p = true
             <-> p ∈ Scored.Provider <$> selectedServers (diversityPass pool sel))
  /\ (forall p, member (selectedLocations (diversityPass pool sel)) p = true
                <-> p ∈ location <$> selectedServers (diversityPass pool sel)).
Proof.
  revert sel. induction pool as [|server pool IH]; intros sel Hp Hl; [now split|].
  cbn [diversityPass]. cbv zeta.
  destruct (alreadySelected (selectedServers sel) server); [now apply IH|].
  destruct (member (selectedProviders sel) (Scored.Provider server)
            && member (selectedLocations sel) (location server)); [now apply IH|].
  destruct (addDiverse_tracked sel server Hp Hl) as [Hp' Hl'].
  destruct (5 <=? length (selectedServers (addDiverse sel server)))%nat;
    [now split | now apply IH].
Qed.

Lemma addHighest_tracked (pool : list Scored.t) :
  (forall p, member (selectedProviders (addHighest pool)) p = true
             <-> p ∈ Scored.Provider <$> selectedServers (addHighest pool))
  /\ (forall p, member (selectedLocations (addHighest pool)) p = true
                <-> p ∈ location <$> selectedServers (addHighest pool)).
Proof.
  assert (E : (forall p, member ∅ p = true <-> p ∈ Scored.Provider <$> [])
              /\ (forall p, member ∅ p = true <-> p ∈ location <$> [])).
  { split; intros p; rewrite member_empty; simpl;
      (split; [discriminate | intros H; now apply elem_of_nil in H]). }
  destruct pool as [|highest pool]; [exact E|].
  destruct E as [Ep El].
  exact (addDiverse_tracked
           {| selectedServers := []; selectedProviders := ∅; selectedLocations := ∅ |}
           highest Ep El).
Qed.

(** X4.  After the highest-scoring server and the diversity pass,
    [selectedProviders] holds exactly the providers, and
    [selectedLocations] exactly the "city,country" strings, of the
    servers selected. *)
Theorem selection_maps_track_servers (pool : list Scored.t) :
  let sel := diversityPass pool (addHighest pool) in
  (forall provider,
     member (selectedProviders sel) provider = true
     <-> provider ∈ Scored.Provider <$> selectedServers sel)
  /\ (forall place,
        member (selectedLocations sel) place = true
        <-> place ∈ (fun s => Scored.City s ++ "," ++ Scored.Country s)
                      <$> selectedServers sel).
Proof.
  intros sel. destruct (addHighest_tracked pool) as [Hp Hl].
  exact (diversityPass_tracked pool (addHighest pool) Hp Hl).
Qed.

(** The diversity pass on servers that are all new by (host, port) and
    by provider takes them in order until it has five. *)
Lemma diversityPass_new_providers (rest : list Scored.t) (sel : Selection) :
  (forall p, member (selectedProviders sel) p = true
             <-> p ∈ Scored.Provider <$> selectedServers sel) ->
  (length (selectedServers sel) < 5)%nat ->
  NoDup ((fun s => (Scored.Host s, Scored.Port s))
           <$> (selectedServers sel ++ rest)%list) ->
  NoDup (Scored.Provider <$> (selectedServers sel ++ rest)%list) ->
  selectedServers (diversityPass rest sel)
  = take 5 (selectedServers sel ++ rest)%list.
Proof.
  revert sel. induction rest as [|server rest IH]; intros sel Hp Hlt Hk Hprov.
  { simpl. rewrite app_nil_r, take_ge; [reflexivity | lia]. }
  cbn [diversityPass]. cbv zeta.
  pose proof Hk as Hk0. pose proof Hprov as Hprov0.
  rewrite fmap_app in Hk. rewrite fmap_app in Hprov. simpl in Hk, Hprov.
  apply NoDup_app in Hk as (_ & Hk & _). apply NoDup_app in Hprov as (_ & Hpr & _).
  assert (Hnew : alreadySelected (selectedServers sel) server = false).
  { apply not_true_iff_false. rewrite alreadySelected_true. intros Hin.
    apply (Hk _ Hin). now left. }
  assert (Hnp : member (selectedProviders sel) (Scored.Provider server) = false).
  { apply not_true_iff_false. rewrite Hp. intros Hin. apply (Hpr _ Hin). now left. }
  rewrite Hnew, Hnp. cbn [andb].
  replace (selectedServers sel ++ server :: rest)%list
    with (selectedServers (addDiverse sel server) ++ rest)%list
    by (cbn [addDiverse selectedServers]; now rewrite <- app_assoc).
  destruct (5 <=? length (selectedServers (addDiverse sel server)))%nat eqn:H.
  - apply Nat.leb_le in H.
    assert (L : length (selectedServers (addDiverse sel server)) = 5%nat).
    { cbn [addDiverse selectedServers] in *. rewrite length_app in *. simpl in *. lia. }
    rewrite take_app_length'; [reflexivity | now symmetry].
  - apply Nat.leb_gt in H. apply IH; [| exact H | |].
    + intros p. cbn [addDiverse selectedServers selectedProviders].
      rewrite member_insert, fmap_app, elem_of_app. simpl.
      rewrite list_elem_of_singleton, Hp. split; (intros [E|E]; [right | left]); auto.
    + cbn [addDiverse selectedServers]. now rewrite <- app_assoc.
    + cbn [addDiverse selectedServers]. now rewrite <- app_assoc.
Qed.

(** X5.  When no two servers of the pool share a (host, port) or a
    provider, the servers selected before the fill pass are the first
    five of the pool (all of it when it has fewer), each of another
    provider. *)
Theorem diversityPass_distinct_providers (pool : list Scored.t) :
  NoDup ((fun s => (Scored.Host s, Scored.Port s)) <$> pool) ->
  NoDup (Scored.Provider <$> pool) ->
  selectedServers (diversityPass pool (addHighest pool)) = take 5 pool
  /\ NoDup (Scored.Provider <$> selectedServers (diversityPass pool (addHighest pool))).
Proof.
  intros Hk Hp.
  assert (E : selectedServers (diversityPass pool (addHighest pool)) = take 5 pool).
  { destruct pool as [|highest rest]; [reflexivity|].
    cbn [diversityPass addHighest]. cbv zeta.
    assert (Hsel : alreadySelected
                     (selectedServers
                        (addDiverse {| selectedServers := []; selectedProviders := ∅;
                                       selectedLocations := ∅ |} highest))
                     highest = true).
    { apply alreadySelected_true. simpl. now left. }
    rewrite Hsel.
    apply (diversityPass_new_providers rest); [| simpl; lia | exact Hk | exact Hp].
    apply (addHighest_tracked (highest :: rest)). }
  split; [exact E|].
  rewrite E, fmap_take. eapply sublist_NoDup; [exact Hp | apply sublist_take].
Qed.

Lemma sixScored_keys :
  NoDup ((fun s => (Scored.Host s, Scored.Port s)) <$> sixScored).
Proof. apply (bool_decide_unpack _). vm_compute. reflexivity. Qed.

Lemma sixScored_providers : NoDup (Scored.Provider <$> sixScored).
Proof. apply (bool_decide_unpack _). vm_compute. reflexivity. Qed.

Lemma selectServers_count_witness :
  NoDup ((fun s => (Scored.Host s, Scored.Port s)) <$> sixScored)
  /\ length (selectServers 1000 sixScored) = 5%nat.
Proof.
  split; [exact sixScored_keys|].
  exact (selectServers_count 1000 sixScored sixScored_keys).
Defined.

Lemma diversityPass_distinct_providers_witness :
  NoDup ((fun s => (Scored.Host s, Scored.Port s)) <$> sixScored)
  /\ NoDup (Scored.Provider <$> sixScored)
  /\ Scored.Host <$> selectedServers (diversityPass sixScored (addHighest sixScored))
     = ["sgp.speedtest.example.net"; "ams.speedtest.example.net";
        "tyo.speedtest.example.net"; "nyc.speedtest.example.net";
        "lon.speedtest.example.net"].
Proof.
  split; [exact sixScored_keys|]. split; [exact sixScored_providers|].
  destruct (diversityPass_distinct_providers sixScored sixScored_keys
              sixScored_providers) as [-> _].
  reflexivity.
Defined.

(** * Further properties of the score *)

Lemma capped_le (x : Q) : ((if Qgtb x 100 then 100 else x) <= 100)%Q.
Proof.
  destruct (Qgtb x 100) eqn:H; [apply Qle_refl | now apply Qgtb_false].
Qed.

Lemma capped_ge (x : Q) : (0 <= x)%Q -> (0 <= (if Qgtb x 100 then 100 else x))%Q.
Proof. intros H. destruct (Qgtb x 100); [discriminate | exact H]. Qed.

(** X6.  A server at a distance that is not negative, with a capacity
    that is not negative, has a score between -20 and 80, and its
    capacity in Mbps is 1000 times its capacity in Gbps. *)
Theorem scoreServer_bounds (ParseFloat : string -> Q * error) (server : Server.t) :
  0 <= Server.Distance server ->
  (0 <= bandwidthGbps ParseFloat (Server.Bandwidth server))%Q ->
  (-20 <= Scored.Score (scoreServer ParseFloat server) <= 80)%Q
  /\ (Scored.BandwidthMbps (scoreServer ParseFloat server)
      == 1000 * Scored.BandwidthGbps (scoreServer ParseFloat server))%Q.
Proof.
  intros Hd Hg. unfold scoreServer. cbn [Scored.Score Scored.BandwidthMbps
                                         Scored.BandwidthGbps].
  set (g := bandwidthGbps ParseFloat (Server.Bandwidth server)) in *.
  set (d := inject_Z (Server.Distance server)).
  assert (Hd' : (0 <= d / 200)%Q).
  { apply Qle_shift_div_l; [reflexivity|]. rewrite Qmult_0_l.
    unfold d. now rewrite <- (Zle_Qle 0). }
  assert (Hg' : (0 <= g / 100 * 100)%Q).
  { assert (E : (g / 100 * 100 == g)%Q) by (field; discriminate). now rewrite E. }
  pose proof (capped_le (g / 100 * 100)) as B1.
  pose proof (capped_ge (g / 100 * 100) Hg') as B0.
  pose proof (capped_le (d / 200)) as D1.
  pose proof (capped_ge (d / 200) Hd') as D0.
  set (b := if Qgtb (g / 100 * 100) 100 then 100%Q else (g / 100 * 100)%Q) in *.
  set (k := if Qgtb (d / 200) 100 then 100%Q else (d / 200)%Q) in *.
  clearbody b k. split; [split; lra | ring].
Qed.

Lemma scoreServer_bounds_witness :
  0 <= Server.Distance singapore
  /\ (0 <= bandwidthGbps decimalParseFloat (Server.Bandwidth singapore))%Q
  /\ (-20 <= Scored.Score (scoreServer decimalParseFloat singapore) <= 80)%Q.
Proof.
  assert (D : 0 <= Server.Distance singapore) by (vm_compute; discriminate).
  assert (G : (0 <= bandwidthGbps decimalParseFloat (Server.Bandwidth singapore))%Q)
    by (vm_compute; discriminate).
  split; [exact D|]. split; [exact G|].
  exact (proj1 (scoreServer_bounds decimalParseFloat singapore D G)).
Defined.

(** X7.  Scoring a server and converting the scored server back, as
    the run does for the servers it selects, gives the server back. *)
Theorem toServer_scoreServer (ParseFloat : string -> Q * error) (server : Server.t) :
  toServer (scoreServer ParseFloat server) = server.
Proof. now destruct server. Qed.

(** X8.  The estimate of the operator's bandwidth is positive and at
    most 25000 Mbps; it is the measured download speed when that lies
    between 0 (excluded) and 10000, 1000 when nothing was measured, and
    25000 for every measurement above 10000. *)
Theorem estimatedUserBandwidth_range (measured : Q) :
  (0 < estimatedUserBandwidth measured <= 25000)%Q
  /\ ((0 < measured <= 10000)%Q -> estimatedUserBandwidth measured = measured)
  /\ ((measured <= 0)%Q -> estimatedUserBandwidth measured = 1000%Q)
  /\ ((10000 < measured)%Q -> estimatedUserBandwidth measured = 25000%Q).
Proof.
  unfold estimatedUserBandwidth.
  destruct (Qgtb measured 0) eqn:H0.
  - apply Qgtb_true in H0. destruct (Qgtb measured 10000) eqn:H1.
    + apply Qgtb_true in H1. repeat split; try reflexivity; try discriminate; lra.
    + apply Qgtb_false in H1. repeat split; try reflexivity; try lra.
  - apply Qgtb_false in H0.
    change (Qgtb 1000 10000) with false. cbv iota.
    repeat split; try reflexivity; try discriminate; lra.
Qed.

(** X9.  The pool of the selection keeps the order of the scored list
    and holds at least five of its servers, or all of them; when one of
    its servers has less than 1.5 times the estimated bandwidth, the
    pool is the first ten servers of the list. *)
Theorem highBandwidthServers_pool (estimated : Q) (l : list Scored.t) :
  let pool := highBandwidthServers estimated l in
  pool `sublist_of` l
  /\ (Nat.min 5 (length l) <= length pool)%nat
  /\ (Forall (fun s => (estimated * 1.5 <= Scored.BandwidthMbps s)%Q) pool
      \/ pool = take 10 l).
Proof.
  intros pool. split; [apply highBandwidthServers_sublist|].
  split; [apply highBandwidthServers_length|].
  unfold pool, highBandwidthServers.
  destruct (length _ <? 5)%nat.
  - right. destruct (Nat.min_spec 10 (length l)) as [[_ ->]|[Hle ->]];
      [reflexivity | now rewrite take_ge, take_ge by lia].
  - left. apply List.Forall_forall. intros s Hs.
    apply filter_In in Hs as [_ Hs]. now apply Qle_bool_iff in Hs.
Qed.

(** * Further properties of the test of one server *)

Section RunTestMore.
Variable Unmarshal_map : string -> option (list (string * json)).

(** X10.  A goroutine runs at most four subprocesses, and none at all
    when the launch command of the server has fewer than three words:
    the result then keeps both speeds at -1. *)
Theorem runTest_subprocesses (w : World) (rank : Z) (serverCopy : Server.t) :
  let out := runTest Unmarshal_map w rank serverCopy [] in
  (length (snd out) <= 4)%nat
  /\ ((length (Split (Server.Command serverCopy) " ") < 3)%nat ->
      snd out = []
      /\ DownloadMbps (fst out) = (-1)%Q /\ UploadMbps (fst out) = (-1)%Q
      /\ TestCompleted (fst out) = false).
Proof.
  intros out. unfold out. split.
  - runTest_unfold. repeat (runTest_step; cbn [app length]); lia.
  - intros Hshort. apply Nat.ltb_lt in Hshort. runTest_unfold.
    rewrite Hshort. repeat split.
Qed.

Lemma finish_speeds (r : NetblastResult) :
  DownloadMbps (finish r) = DownloadMbps r /\ UploadMbps (finish r) = UploadMbps r.
Proof. unfold finish. now destruct (_ && _). Qed.

Lemma finish_unmeasured (r : NetblastResult) :
  UploadMbps r = (-1)%Q -> finish r = r.
Proof.
  intros H. unfold finish. rewrite H.
  change (Qgtb (-1) 0) with false. now rewrite andb_false_r.
Qed.

(** X11.  The upload speed is measured only after a positive download
    speed and only on a server whose options contain "-R"; on any other
    server the goroutine runs at most two subprocesses, the upload
    speed stays at -1 and the test is not completed. *)
Theorem upload_needs_download_and_reverse (w : World) (rank : Z)
    (serverCopy : Server.t) :
  let out := runTest Unmarshal_map w rank serverCopy [] in
  ((0 < UploadMbps (fst out))%Q ->
   (0 < DownloadMbps (fst out))%Q
   /\ Contains (Server.Options serverCopy) "-R" = true)
  /\ (Contains (Server.Options serverCopy) "-R" = false ->
      UploadMbps (fst out) = (-1)%Q /\ TestCompleted (fst out) = false
      /\ (length (snd out) <= 2)%nat).
Proof.
  intros out. unfold out. split.
  - runTest_unfold. repeat runTest_step;
      rewrite ?(proj1 (finish_speeds _)), ?(proj2 (finish_speeds _));
      cbn [UploadMbps DownloadMbps setUploadMbps setDownloadMbps];
      intros Hup; try discriminate Hup;
      match goal with
      | H : Qgtb _ 0 = true |- _ =>
          apply Qgtb_true in H; split; [exact H | reflexivity]
      end.
  - intros Hno. runTest_unfold. rewrite Hno.
    repeat (runTest_step; cbn [app length]);
      rewrite ?finish_unmeasured by reflexivity;
      repeat split; simpl; lia.
Qed.

(** X12.  A positive download speed is the bits per second of the
    report of the last download subprocess, divided by 1000000: that
    subprocess returned no error and its output was decoded. *)
Theorem download_is_reported (w : World) (rank : Z) (serverCopy : Server.t) :
  let commandParts := Split (Server.Command serverCopy) " " in
  let first := firstArgs commandParts [] in
  let retry := retryArgs serverCopy [] in
  let attempt1 := w [] first in
  let attempt2 := w [first] retry in
  let last := if isNil (snd attempt1) then attempt1 else attempt2 in
  let out := runTest Unmarshal_map w rank serverCopy [] in
  (0 < DownloadMbps (fst out))%Q ->
  isNil (snd last) = true
  /\ exists report bits,
       Unmarshal_map (fst last) = Some report
       /\ bitsPerSecond report "sum_received" = Some bits
       /\ DownloadMbps (fst out) = (bits / 1000000)%Q.
Proof.
  intros commandParts first retry attempt1 attempt2 last out.
  unfold out, last, attempt1, attempt2. runTest_unfold.
  fold commandParts. fold first. fold retry. cbn [app].
  repeat (runTest_step; cbn [app fst snd]);
    cbn [fst snd] in *;
    rewrite ?(proj1 (finish_speeds _));
    cbn [DownloadMbps setUploadMbps setDownloadMbps];
    intros Hpos; try discriminate Hpos; try congruence.
  all: split; [reflexivity|]; eexists; eexists;
    split; [reflexivity|]; split; [eassumption | reflexivity].
Qed.

End RunTestMore.

Lemma download_is_reported_witness :
  (0 < DownloadMbps (fst (runTest sampleUnmarshal healthy 1 amsterdam [])))%Q
  /\ exists bits,
       DownloadMbps (fst (runTest sampleUnmarshal healthy 1 amsterdam []))
       = (bits / 1000000)%Q.
Proof.
  assert (H : (0 < DownloadMbps (fst (runTest sampleUnmarshal healthy 1 amsterdam [])))%Q)
    by reflexivity.
  split; [exact H|].
  destruct (download_is_reported sampleUnmarshal healthy 1 amsterdam H)
    as (_ & report & bits & _ & _ & E).
  exists bits. exact E.
Defined.

(** * The ranked results in the report *)

(** A slice in which no element is [less] than the one before it is
    left as it is. *)
Lemma fold_swapDown_sorted {A : Type} (less : A -> A -> bool) (data acc : list A) :
  Sorted (fun a b => less b a = false) (List.rev acc ++ data) ->
  fold_left (fun sortedRev x => swapDown less x sortedRev) data acc
  = (List.rev data ++ acc)%list.
Proof.
  revert acc. induction data as [|x data IH]; intros acc Hs; [reflexivity|].
  cbn [fold_left].
  assert (E : swapDown less x acc = x :: acc).
  { destruct acc as [|y acc]; [reflexivity|]. cbn [swapDown].
    cbn [List.rev] in Hs. rewrite <- app_assoc in Hs. cbn [app] in Hs.
    assert (Hyx : Sorted (fun a b => less b a = false) (y :: x :: data)).
    { clear IH. induction (List.rev acc) as [|z l IHl]; [exact Hs|].
      apply IHl. now inversion Hs. }
    inversion Hyx as [|? ? _ Hd]. inversion Hd as [|? ? Hxy]. now rewrite Hxy. }
  rewrite E, IH.
  - cbn [List.rev]. now rewrite <- app_assoc.
  - cbn [List.rev]. now rewrite <- app_assoc.
Qed.

Lemma sort_Slice_sorted_id {A : Type} (less : A -> A -> bool) (data : list A) :
  Sorted (fun a b => less b a = false) data -> sort_Slice less data = data.
Proof.
  intros Hs. unfold sort_Slice, insertionSortLessFunc.
  rewrite (fold_swapDown_sorted less data [] Hs), app_nil_r.
  apply rev_involutive.
Qed.

Lemma imap_setRank_Sorted (k : nat) (l : list NetblastResult) :
  Sorted (fun a b => byRank b a = false)
    (imap (fun i result => setRank result (Z.of_nat (k + i) + 1)) l).
Proof.
  revert k. induction l as [|r l IH]; intros k; [constructor|].
  cbn [imap]. constructor.
  - rewrite (imap_ext _ (fun i result => setRank result (Z.of_nat (S k + i) + 1)));
      [apply IH|].
    intros i x _. simpl. now rewrite Nat.add_succ_r.
  - destruct l as [|r' l]; constructor.
    unfold byRank. simpl. apply Z.ltb_ge. lia.
Qed.

(** X13.  Sorting the ranked results by rank, as the report and the
    HTML export do before they write them, leaves them in the order of
    the ranking. *)
Theorem sortByRank_aggregate (results : list NetblastResult) :
  sortByRank (aggregate results) = aggregate results.
Proof.
  apply sort_Slice_sorted_id. apply (imap_setRank_Sorted 0).
Qed.

(** * Further properties of the distance *)

Local Open Scope R_scope.





(** X14.  The distance from a point to a second one is the distance from
    the second to the first, and the distance from a point to itself is
    0. *)
Theorem calculateDistance_symmetric (lat1 lon1 lat2 lon2 : R) :
  calculateDistance lat1 lon1 lat2 lon2 = calculateDistance lat2 lon2 lat1 lon1
  /\ calculateDistance lat1 lon1 lat1 lon1 = 0%Z.
Proof.
  split.
  - unfold calculateDistance. f_equal. unfold haversine.
    replace ((lat1 * PI / 180 - lat2 * PI / 180) / 2)
      with (- ((lat2 * PI / 180 - lat1 * PI / 180) / 2)) by lra.
    replace ((lon1 * PI / 180 - lon2 * PI / 180) / 2)
      with (- ((lon2 * PI / 180 - lon1 * PI / 180) / 2)) by lra.
    rewrite !sin_neg.
    set (s := sin ((lat2 * PI / 180 - lat1 * PI / 180) / 2)).
    set (t := sin ((lon2 * PI / 180 - lon1 * PI / 180) / 2)).
    replace (- s * - s + cos (lat2 * PI / 180) * cos (lat1 * PI / 180) * - t * - t)
      with (s * s + cos (lat1 * PI / 180) * cos (lat2 * PI / 180) * t * t) by ring.
    reflexivity.
  - unfold calculateDistance, haversine.
    replace ((lat1 * PI / 180 - lat1 * PI / 180) / 2) with 0 by lra.
    replace ((lon1 * PI / 180 - lon1 * PI / 180) / 2) with 0 by lra.
    rewrite sin_0.
    replace (0 * 0 + cos (lat1 * PI / 180) * cos (lat1 * PI / 180) * 0 * 0)
      with 0 by ring.
    rewrite Rminus_0_r, sqrt_0, sqrt_1.
    unfold Atan2. destruct (Rlt_dec 0 1) as [_|N]; [|lra].
    unfold Rdiv. rewrite Rmult_0_l, atan_0, Rmult_0_r, Rmult_0_r.
    unfold float64_to_int. destruct (Rle_dec 0 0) as [_|N]; [|lra].
    apply Int_part_unit. lra.
Qed.




Local Close Scope R_scope.




(** * The host and the port of a candidate *)

Lemma prefix_char (c x : ascii) (s : string) :
  String.prefix (String c "") (String x s) = Ascii.eqb c x.
Proof.
  cbn [String.prefix]. destruct (ascii_dec c x) as [->|N].
  - rewrite Ascii.eqb_refl. now destruct s.
  - symmetry. now apply Ascii.eqb_neq.
Qed.

Lemma Contains_char_cons (c x : ascii) (s : string) :
  Contains (String x s) (String c "")
  = Ascii.eqb c x || Contains s (String c "").
Proof. rewrite <- (prefix_char c x s). reflexivity. Qed.

Lemma append_cons (x : ascii) (s t : string) : String x s ++ t = String x (s ++ t).
Proof. reflexivity. Qed.

Lemma Contains_char_app (c : ascii) (s t : string) :
  Contains (s ++ t) (String c "")
  = Contains s (String c "") || Contains t (String c "").
Proof.
  induction s as [|x s IH].
  - reflexivity.
  - rewrite append_cons, !Contains_char_cons, IH. now rewrite orb_assoc.
Qed.

Lemma append_assoc (s t u : string) : (s ++ t) ++ u = s ++ (t ++ u).
Proof. induction s as [|x s IH]; [reflexivity | now rewrite !append_cons, IH]. Qed.

Lemma append_empty (s : string) : s ++ "" = s.
Proof. induction s as [|x s IH]; [reflexivity | now rewrite !append_cons, IH]. Qed.

(** [strings.Split] on a separator of one byte: a string without the
    separator is one piece, and the first piece ends at the first
    separator. *)
Lemma splitLoop_without (c : ascii) (s cur : string) :
  Contains s (String c "") = false ->
  splitLoop (String c "") 0 cur s = [cur ++ s].
Proof.
  revert cur. induction s as [|x s IH]; intros cur H.
  - now rewrite append_empty.
  - rewrite Contains_char_cons in H. apply orb_false_iff in H as [Hx Hs].
    cbn [splitLoop]. rewrite prefix_char, Hx, (IH _ Hs), append_assoc.
    reflexivity.
Qed.

Lemma splitLoop_first (c : ascii) (a b cur : string) :
  Contains a (String c "") = false ->
  splitLoop (String c "") 0 cur (a ++ String c b)
  = (cur ++ a) :: splitLoop (String c "") 0 "" b.
Proof.
  revert cur. induction a as [|x a IH]; intros cur H.
  - change ("" ++ String c b) with (String c b).
    cbn [splitLoop]. rewrite prefix_char, Ascii.eqb_refl.
    now rewrite append_empty.
  - rewrite Contains_char_cons in H. apply orb_false_iff in H as [Hx Ha].
    rewrite append_cons. cbn [splitLoop].
    rewrite prefix_char, Hx, (IH _ Ha), append_assoc.
    reflexivity.
Qed.

Lemma splitLoop_head (c : ascii) (s cur : string) :
  Contains cur (String c "") = false ->
  Contains (hd "" (splitLoop (String c "") 0 cur s)) (String c "") = false.
Proof.
  revert cur. induction s as [|x s IH]; intros cur H.
  - exact H.
  - cbn [splitLoop]. rewrite prefix_char. destruct (Ascii.eqb c x) eqn:Hx.
    + exact H.
    + apply IH. rewrite Contains_char_app, H, Contains_char_cons, Hx. reflexivity.
Qed.

Lemma digitValue_range (c : ascii) (d : Z) : digitValue c = Some d -> 0 <= d <= 9.
Proof.
  unfold digitValue.
  destruct (_ && _) eqn:H; [|discriminate]. intros [= <-]. lia.
Qed.

Lemma readDigits_nonneg (s : string) (acc n : Z) :
  0 <= acc -> readDigits acc s = Some n -> 0 <= n.
Proof.
  revert acc. induction s as [|c s IH]; intros acc Hacc; cbn [readDigits].
  - now intros [= <-].
  - destruct (digitValue c) as [d|] eqn:Hd; [|discriminate].
    apply digitValue_range in Hd. apply IH. lia.
Qed.

(** [strconv.Atoi] returns no error only with a value of 64 bits, and
    only with a value that is not negative on a string that has no
    "-". *)
Lemma Atoi_range (s : string) (n : Z) :
  Atoi s = (n, None) -> - 2 ^ 63 <= n < 2 ^ 63.
Proof.
  unfold Atoi.
  destruct (match s with EmptyString => readNat s | String _ _ => _ end) as [m|];
    [|discriminate].
  destruct (_ && _) eqn:H; [|discriminate]. intros [= <-]. lia.
Qed.

Lemma readNat_nonneg (s : string) (n : Z) : readNat s = Some n -> 0 <= n.
Proof. destruct s; [discriminate|]. now apply readDigits_nonneg. Qed.

Lemma Atoi_unsigned (s : string) (n : Z) :
  Contains s "-" = false -> Atoi s = (n, None) -> 0 <= n < 2 ^ 63.
Proof.
  intros Hs H. pose proof (Atoi_range _ _ H) as Hr. split; [|lia].
  unfold Atoi in H. destruct s as [|c s].
  - discriminate H.
  - rewrite Contains_char_cons in Hs. apply orb_false_iff in Hs as [Hc _].
    destruct (Ascii.eqb_spec "-" c) as [|N]; [discriminate|].
    assert (E : exists m, 0 <= m /\ (if (- 2 ^ 63 <=? m) && (m <? 2 ^ 63) then (m, None)
                       else (if m <? 0 then - 2 ^ 63 else 2 ^ 63 - 1,
                             Some "value out of range")) = (n, @None string)).
    { destruct c as [[] [] [] [] [] [] [] []];
        try (exfalso; now apply N);
        match type of H with
        | match ?o with _ => _ end = _ =>
            destruct o as [m|] eqn:Hm; [|discriminate H];
            exists m; split; [now apply readNat_nonneg in Hm|exact H]
        end. }
    destruct E as (m & Hm & E). destruct (_ && _); [|discriminate E].
    now injection E as <-.
Qed.

Lemma parsePort_range (portRange : string) (port : Z) :
  0 <= port < 2 ^ 63 -> 0 <= parsePort portRange port < 2 ^ 63.
Proof.
  intros Hp. unfold parsePort. destruct (Contains portRange "-") eqn:Hc.
  - destruct (Atoi _) as [n [e|]] eqn:Ha; cbn [isNil]; [exact Hp|].
    apply (Atoi_unsigned _ _ (splitLoop_head "-" portRange "" eq_refl) Ha).
  - destruct (Atoi _) as [n [e|]] eqn:Ha; cbn [isNil]; [exact Hp|].
    apply (Atoi_unsigned _ _ Hc Ha).
Qed.

Lemma findPort_range (parts : list string) (port : Z) :
  0 <= port < 2 ^ 63 -> 0 <= findPort parts port < 2 ^ 63.
Proof.
  intros Hp. induction parts as [|part [|next rest] IH]; cbn [findPort]; try exact Hp.
  destruct (String.eqb part "-p"); [now apply parsePort_range | exact IH].
Qed.

(** [fmt.Sprintf("%d", n)] read back by [strconv.Atoi]. *)
Lemma readDigits_of_uint_acc (d : Decimal.uint) (acc : positive) :
  readDigits (Z.pos acc) (NilEmpty.string_of_uint d)
  = Some (Z.pos (Pos.of_uint_acc d acc)).
Proof.
  revert acc.
  induction d as [|d IH|d IH|d IH|d IH|d IH|d IH|d IH|d IH|d IH|d IH]; intros acc;
    cbn [NilEmpty.string_of_uint readDigits Pos.of_uint_acc];
    [reflexivity|..];
    match goal with
    | |- context [digitValue ?c] =>
        let v := eval vm_compute in (digitValue c) in
        change (digitValue c) with v
    end;
    cbv iota beta; rewrite <- IH; f_equal; lia.
Qed.

Lemma readDigits_of_uint (d : Decimal.uint) :
  readDigits 0 (NilEmpty.string_of_uint d) = Some (Z.of_N (Pos.of_uint d)).
Proof.
  induction d as [|d IH|d IH|d IH|d IH|d IH|d IH|d IH|d IH|d IH|d IH];
    cbn [NilEmpty.string_of_uint readDigits Pos.of_uint];
    [reflexivity|..];
    match goal with
    | |- context [digitValue ?c] =>
        let v := eval vm_compute in (digitValue c) in
        change (digitValue c) with v
    end;
    cbv iota beta; [exact IH|..];
    cbn [Z.of_N]; rewrite <- readDigits_of_uint_acc; reflexivity.
Qed.

Lemma string_of_uint_digits (d : Decimal.uint) :
  Contains (NilEmpty.string_of_uint d) "-" = false
  /\ Contains (NilEmpty.string_of_uint d) " " = false.
Proof.
  induction d as [|d [IH1 IH2]|d [IH1 IH2]|d [IH1 IH2]|d [IH1 IH2]|d [IH1 IH2]
                 |d [IH1 IH2]|d [IH1 IH2]|d [IH1 IH2]|d [IH1 IH2]|d [IH1 IH2]];
    cbn [NilEmpty.string_of_uint]; [now split|..];
    rewrite !Contains_char_cons, IH1, IH2; now split.
Qed.

Lemma readNat_to_uint (p : positive) :
  readNat (NilEmpty.string_of_uint (Pos.to_uint p)) = Some (Z.pos p).
Proof.
  pose proof (readDigits_of_uint (Pos.to_uint p)) as R.
  pose proof (DecimalPos.Unsigned.of_to p) as E. rewrite E in R.
  destruct (Pos.to_uint p); [discriminate E|..]; exact R.
Qed.

Lemma Atoi_itoa_any (n : Z) :
  Atoi (itoa n)
  = if (- 2 ^ 63 <=? n) && (n <? 2 ^ 63) then (n, None)
    else (if n <? 0 then - 2 ^ 63 else 2 ^ 63 - 1, Some "value out of range").
Proof.
  unfold itoa. destruct n as [|p|p]; [reflexivity|..];
    cbn [Z.to_int NilEmpty.string_of_int].
  - pose proof (readNat_to_uint p) as R.
    unfold Atoi.
    destruct (Pos.to_uint p); [discriminate R|..];
      cbn [NilEmpty.string_of_uint] in *; rewrite R; reflexivity.
  - unfold Atoi. rewrite readNat_to_uint. reflexivity.
Qed.

Lemma Atoi_itoa (n : Z) : - 2 ^ 63 <= n < 2 ^ 63 -> Atoi (itoa n) = (n, None).
Proof.
  intros Hn. rewrite Atoi_itoa_any.
  destruct (_ && _) eqn:H; [reflexivity|lia].
Qed.

Lemma itoa_digits (n : Z) :
  0 <= n -> Contains (itoa n) "-" = false /\ Contains (itoa n) " " = false.
Proof.
  intros Hn. unfold itoa. destruct n as [|p|p]; [now split| |lia].
  apply string_of_uint_digits.
Qed.

Lemma TrimPrefix_command (s : string) :
  TrimPrefix ("iperf3 -c " ++ s) "iperf3 -c " = s.
Proof.
  unfold TrimPrefix.
  replace (String.prefix "iperf3 -c " ("iperf3 -c " ++ s)) with true
    by (now destruct s).
  reflexivity.
Qed.

Lemma parsePort_itoa (n port : Z) (rest : string) :
  0 <= n < 2 ^ 63 ->
  parsePort (itoa n) port = n
  /\ parsePort (itoa n ++ "-" ++ rest) port = n.
Proof.
  intros Hn. destruct (itoa_digits n) as [Hd _]; [lia|].
  unfold parsePort. split.
  - rewrite Hd, Atoi_itoa by lia. reflexivity.
  - rewrite Contains_char_app, Hd.
    change ("-" ++ rest) with (String "-" rest).
    rewrite Contains_char_cons. cbn [orb Ascii.eqb Bool.eqb].
    unfold Split. rewrite splitLoop_first by exact Hd.
    cbn [hd]. change ("" ++ itoa n) with (itoa n).
    rewrite Atoi_itoa by lia. reflexivity.
Qed.

Lemma processServer_Host_Port (selfLat selfLon : Q) (server : Iperf3Server)
    (candidate : Server.t) :
  processServer selfLat selfLon server = Some candidate ->
  Server.Host candidate
  = hd "" (Split (TrimPrefix (IP_HOST server) "iperf3 -c ") " ")
  /\ Server.Port candidate
     = findPort (tl (Split (TrimPrefix (IP_HOST server) "iperf3 -c ") " ")) 5201.
Proof.
  unfold processServer. destruct (coordinates _ _) as [[lat lon]|]; [|discriminate].
  now intros [= <-].
Qed.

Lemma Split_host (host : string) :
  Contains host " " = false -> Split host " " = [host].
Proof. intros H. unfold Split. now rewrite splitLoop_without. Qed.

Lemma Split_host_port (host portRange : string) :
  Contains host " " = false -> Contains portRange " " = false ->
  Split (host ++ " -p " ++ portRange) " " = [host; "-p"; portRange].
Proof.
  intros Hh Hp. unfold Split.
  change (" -p " ++ portRange) with (String " " ("-p" ++ String " " portRange)).
  rewrite splitLoop_first by exact Hh.
  rewrite splitLoop_first by reflexivity.
  rewrite splitLoop_without by exact Hp. reflexivity.
Qed.

Lemma parsePort_unreadable (n port : Z) :
  n < 0 \/ 2 ^ 63 <= n -> parsePort (itoa n) port = port.
Proof.
  intros Hn. unfold parsePort. destruct n as [|p|p]; [lia| |].
  - destruct (itoa_digits (Z.pos p)) as [Hd _]; [lia|].
    rewrite Hd, Atoi_itoa_any.
    destruct (_ && _) eqn:H; [lia|reflexivity].
  - unfold itoa. cbn [Z.to_int NilEmpty.string_of_int].
    rewrite Contains_char_cons. cbn [orb Ascii.eqb Bool.eqb].
    unfold Split. cbn [splitLoop]. rewrite prefix_char. reflexivity.
Qed.

(** X17.  The host of a candidate holds no space, and its port is a
    number from 0 to 2^63 - 1, whatever the entry of the feed; a port
    that is negative or does not fit 64 bits leaves the port at
    5201. *)
Theorem processServer_host_port_range (selfLat selfLon : Q) (server : Iperf3Server)
    (candidate : Server.t) :
  processServer selfLat selfLon server = Some candidate ->
  Contains (Server.Host candidate) " " = false
  /\ 0 <= Server.Port candidate < 2 ^ 63
  /\ (forall host n,
        n < 0 \/ 2 ^ 63 <= n ->
        Contains host " " = false ->
        IP_HOST server = "iperf3 -c " ++ host ++ " -p " ++ itoa n ->
        Server.Port candidate = 5201).
Proof.
  intros H. apply processServer_Host_Port in H as [-> ->].
  split; [now apply splitLoop_head|]. split; [apply findPort_range; lia|].
  intros host n Hn Hh ->. rewrite TrimPrefix_command.
  destruct n as [|p|p]; [lia| |].
  - destruct (itoa_digits (Z.pos p)) as [_ Hs]; [lia|].
    rewrite Split_host_port by assumption.
    cbn [tl findPort]. change ("-p" =? "-p")%string with true. cbv iota.
    now apply parsePort_unreadable.
  - unfold itoa. cbn [Z.to_int NilEmpty.string_of_int].
    rewrite Split_host_port;
      [|assumption
       |rewrite Contains_char_cons; now rewrite (proj2 (string_of_uint_digits _))].
    cbn [tl findPort]. change ("-p" =? "-p")%string with true. cbv iota.
    apply (parsePort_unreadable (Z.neg p)). lia.
Qed.

Lemma processServer_host_port_range_witness :
  Contains (Server.Host singaporeCandidate) " " = false
  /\ 0 <= Server.Port singaporeCandidate < 2 ^ 63.
Proof.
  pose proof (processServer_host_port_range 1.3521 103.8138 singaporeEntry
                singaporeCandidate eq_refl) as (H1 & H2 & _).
  now split.
Defined.

(** X18.  An entry of the feed whose command is "iperf3 -c HOST",
    "iperf3 -c HOST -p N" or "iperf3 -c HOST -p N-M", with no space in
    HOST and N from 0 to 2^63 - 1 in decimal, becomes a candidate of
    host HOST and of port 5201, N and N. *)
Theorem processServer_host_port (selfLat selfLon : Q) (server : Iperf3Server)
    (candidate : Server.t) (host : string) (n : Z) (last : string) :
  processServer selfLat selfLon server = Some candidate ->
  Contains host " " = false ->
  Contains last " " = false ->
  0 <= n < 2 ^ 63 ->
  (IP_HOST server = "iperf3 -c " ++ host ->
   Server.Host candidate = host /\ Server.Port candidate = 5201)
  /\ (IP_HOST server = "iperf3 -c " ++ host ++ " -p " ++ itoa n ->
      Server.Host candidate = host /\ Server.Port candidate = n)
  /\ (IP_HOST server = "iperf3 -c " ++ host ++ " -p " ++ itoa n ++ "-" ++ last ->
      Server.Host candidate = host /\ Server.Port candidate = n).
Proof.
  intros H Hh Hl Hn. apply processServer_Host_Port in H as [-> ->].
  destruct (itoa_digits n) as [_ Hs]; [lia|].
  destruct (parsePort_itoa n 5201 last Hn) as [P1 P2].
  split; [|split]; intros ->; rewrite TrimPrefix_command; split.
  - now rewrite Split_host.
  - now rewrite Split_host.
  - now rewrite Split_host_port.
  - rewrite Split_host_port by assumption. cbn [tl findPort].
    change ("-p" =? "-p")%string with true. exact P1.
  - rewrite Split_host_port; [reflexivity|assumption|].
    rewrite Contains_char_app, Hs.
    change ("-" ++ last) with (String "-" last).
    now rewrite Contains_char_cons, Hl.
  - rewrite Split_host_port; [|assumption|].
    + cbn [tl findPort]. change ("-p" =? "-p")%string with true. exact P2.
    + rewrite Contains_char_app, Hs.
      change ("-" ++ last) with (String "-" last).
      now rewrite Contains_char_cons, Hl.
Qed.

Lemma processServer_host_port_witness :
  Server.Host singaporeCandidate = "sgp.speedtest.example.net"
  /\ Server.Port singaporeCandidate = 9200.
Proof.
  refine (proj2 (proj2 (processServer_host_port 1.3521 103.8138 singaporeEntry
                          singaporeCandidate "sgp.speedtest.example.net" 9200 "9240"
                          eq_refl eq_refl eq_refl _)) eq_refl).
  lia.
Defined.

(** * The choice of the servers in [runIperf3Tests] *)

Lemma groupByContinent_lookup (filteredServers : list Iperf3.Filtered.t) (c : string) :
  Iperf3.groupByContinent filteredServers !! c
  = match List.filter (fun s => String.eqb (Iperf3.continent s) c) filteredServers with
    | [] => None
    | servers => Some servers
    end.
Proof.
  induction filteredServers as [|x l IH] using rev_ind.
  - reflexivity.
  - unfold Iperf3.groupByContinent in *. rewrite fold_left_app. cbn [fold_left].
    rewrite List.filter_app. cbn [List.filter].
    destruct (String.eqb_spec (Iperf3.continent x) c) as [->|N].
    + rewrite lookup_insert_eq, IH.
      destruct (List.filter _ l); reflexivity.
    + rewrite lookup_insert_ne by exact N. rewrite IH, app_nil_r. reflexivity.
Qed.

Lemma filter_continent_nil (l : list Iperf3.Filtered.t) (c : string) :
  List.filter (fun s => String.eqb (Iperf3.continent s) c) l = []
  <-> forall s, s ∈ l -> Iperf3.continent s <> c.
Proof.
  split.
  - intros H s Hs E. apply list_elem_of_In in Hs.
    assert (Hin : In s (List.filter (fun s => String.eqb (Iperf3.continent s) c) l)).
    { apply List.filter_In. split; [exact Hs | now apply String.eqb_eq]. }
    rewrite H in Hin. exact Hin.
  - intros H. destruct (List.filter _ l) as [|s g] eqn:E; [reflexivity|].
    assert (Hin : In s (List.filter (fun s => String.eqb (Iperf3.continent s) c) l))
      by (rewrite E; now left).
    apply List.filter_In in Hin as [Hin Hc]. apply String.eqb_eq in Hc.
    apply list_elem_of_In in Hin. now destruct (H s Hin).
Qed.

(** X19.  [continentServers] has an entry for a continent exactly when
    a server of the list falls under it, and the entry is the servers of
    that continent in the order of the list. *)
Theorem groupByContinent_groups (filteredServers : list Iperf3.Filtered.t)
    (c : string) :
  (Iperf3.groupByContinent filteredServers !! c = None
   <-> forall s, s ∈ filteredServers -> Iperf3.continent s <> c)
  /\ (forall servers,
        Iperf3.groupByContinent filteredServers !! c = Some servers ->
        servers <> []
        /\ servers
           = List.filter (fun s => String.eqb (Iperf3.continent s) c) filteredServers).
Proof.
  rewrite groupByContinent_lookup. split.
  - rewrite <- filter_continent_nil.
    destruct (List.filter _ filteredServers); split; congruence.
  - intros servers H. destruct (List.filter _ filteredServers); [discriminate H|].
    injection H as <-. split; [discriminate | reflexivity].
Qed.

Lemma fromUserContinent_take (filteredServers : list Iperf3.Filtered.t) (u : string) :
  Iperf3.fromUserContinent (Iperf3.groupByContinent filteredServers) u
  = take 2 (List.filter (fun s => String.eqb (Iperf3.continent s) u) filteredServers).
Proof.
  unfold Iperf3.fromUserContinent. rewrite groupByContinent_lookup.
  destruct (List.filter _ filteredServers) as [|a g]; [reflexivity|].
  set (servers := a :: g). change (0 <? length servers)%nat with true. cbv iota zeta.
  unfold Iperf3.min. destruct (Z.ltb_spec 2 (Z.of_nat (length servers))) as [H|H].
  - reflexivity.
  - rewrite Nat2Z.id, firstn_all. symmetry. apply take_ge. lia.
Qed.

Lemma fromOtherContinent_app (filteredServers selectedServers : list Iperf3.Filtered.t)
    (u c : string) :
  Iperf3.fromOtherContinent (Iperf3.groupByContinent filteredServers) u
    selectedServers c
  = (selectedServers
     ++ if String.eqb c u then []
        else match List.filter (fun s => String.eqb (Iperf3.continent s) c)
                     filteredServers with
             | first :: _ =>
                 if Iperf3.Filtered.Distance first <? 15000 then [first] else []
             | [] => []
             end)%list.
Proof.
  unfold Iperf3.fromOtherContinent. rewrite groupByContinent_lookup.
  destruct (String.eqb c u); [now rewrite app_nil_r|].
  destruct (List.filter _ filteredServers) as [|first g]; [now rewrite app_nil_r|].
  destruct (_ <? 15000); [reflexivity | now rewrite app_nil_r].
Qed.

Lemma fold_fromOtherContinent (filteredServers : list Iperf3.Filtered.t) (u : string)
    (continents : list string) (selectedServers : list Iperf3.Filtered.t) :
  fold_left (Iperf3.fromOtherContinent (Iperf3.groupByContinent filteredServers) u)
    continents selectedServers
  = (selectedServers
     ++ flat_map (Iperf3.fromOtherContinent
                    (Iperf3.groupByContinent filteredServers) u [])
          continents)%list.
Proof.
  revert selectedServers.
  induction continents as [|c cs IH]; intros selectedServers; cbn [fold_left flat_map].
  - now rewrite app_nil_r.
  - rewrite IH, (fromOtherContinent_app _ selectedServers).
    rewrite (fromOtherContinent_app _ []). cbn [app]. now rewrite <- app_assoc.
Qed.

Lemma beforeLimit_parts (userCountry : string) (filteredServers : list Iperf3.Filtered.t) :
  Iperf3.beforeLimit userCountry filteredServers
  = (take 2 (List.filter
               (fun s => String.eqb (Iperf3.continent s) (Iperf3.continentOf userCountry))
               filteredServers)
     ++ flat_map (Iperf3.fromOtherContinent
                    (Iperf3.groupByContinent filteredServers)
                    (Iperf3.continentOf userCountry) [])
          Iperf3.continentsToCheck)%list.
Proof.
  unfold Iperf3.beforeLimit. cbv zeta.
  now rewrite fold_fromOtherContinent, fromUserContinent_take.
Qed.

(** What the loop adds for one continent. *)
Lemma fromOtherContinent_one (filteredServers : list Iperf3.Filtered.t) (u c : string)
    (s : Iperf3.Filtered.t) :
  s ∈ Iperf3.fromOtherContinent (Iperf3.groupByContinent filteredServers) u [] c ->
  c <> u
  /\ Iperf3.continent s = c
  /\ Iperf3.Filtered.Distance s < 15000
  /\ head (List.filter (fun s => String.eqb (Iperf3.continent s) c) filteredServers)
     = Some s
  /\ Iperf3.fromOtherContinent (Iperf3.groupByContinent filteredServers) u [] c = [s].
Proof.
  rewrite fromOtherContinent_app. cbn [app].
  destruct (String.eqb_spec c u) as [|N]; [intros H; inversion H|].
  destruct (List.filter _ filteredServers) as [|first g] eqn:E; [intros H; inversion H|].
  destruct (Z.ltb_spec (Iperf3.Filtered.Distance first) 15000) as [Hd|Hd];
    [|intros H; inversion H].
  intros H. apply list_elem_of_singleton in H as ->.
  assert (Hin : In first (List.filter (fun s => String.eqb (Iperf3.continent s) c)
                            filteredServers)) by (rewrite E; now left).
  apply List.filter_In in Hin as [_ Hc]. apply String.eqb_eq in Hc.
  now repeat split.
Qed.

Lemma fromOtherContinent_length (filteredServers : list Iperf3.Filtered.t)
    (u c : string) :
  (length (Iperf3.fromOtherContinent (Iperf3.groupByContinent filteredServers) u [] c)
   <= 1)%nat.
Proof.
  rewrite fromOtherContinent_app. cbn [app].
  destruct (String.eqb c u); [cbn; lia|].
  destruct (List.filter _ filteredServers); [cbn; lia|].
  destruct (_ <? 15000); cbn; lia.
Qed.

Lemma selectServers_take (userCountry : string) (filteredServers : list Iperf3.Filtered.t) :
  Iperf3.selectServers userCountry filteredServers
  = take 5 (Iperf3.beforeLimit userCountry filteredServers).
Proof.
  unfold Iperf3.selectServers. cbv zeta.
  destruct (Nat.ltb_spec 5 (length (Iperf3.beforeLimit userCountry filteredServers)));
    [reflexivity|].
  symmetry. now apply take_ge.
Qed.

(** X20.  A server that [runIperf3Tests] selects is a server of the
    filtered list, and it is of the continent of the operator, or else
    the first server of the list of one of the six continents checked
    and less than 15000 km away. *)
Theorem iperf3_selected_origin (userCountry : string)
    (filteredServers : list Iperf3.Filtered.t) (s : Iperf3.Filtered.t) :
  s ∈ Iperf3.selectServers userCountry filteredServers ->
  s ∈ filteredServers
  /\ (Iperf3.continent s = Iperf3.continentOf userCountry
      \/ (Iperf3.continent s ∈ Iperf3.continentsToCheck
          /\ Iperf3.Filtered.Distance s < 15000
          /\ head (List.filter
                     (fun s' => String.eqb (Iperf3.continent s') (Iperf3.continent s))
                     filteredServers)
             = Some s)).
Proof.
  rewrite selectServers_take. intros H.
  pose proof (elem_of_sublist _ _ _ H (sublist_take _ _)) as H'. clear H.
  rewrite beforeLimit_parts in H'. apply elem_of_app in H' as [H|H].
  - pose proof (elem_of_sublist _ _ _ H (sublist_take _ _)) as H'.
    apply list_elem_of_In, List.filter_In in H' as [Hin Hc].
    apply String.eqb_eq in Hc. split; [now apply list_elem_of_In | now left].
  - apply list_elem_of_In, in_flat_map in H as (c & Hc & H).
    apply list_elem_of_In in H. apply list_elem_of_In in Hc.
    pose proof (fromOtherContinent_one _ _ _ _ H) as (_ & E & Hd & Hh & _).
    subst c. split.
    + destruct (List.filter _ filteredServers) as [|first g] eqn:F; [discriminate Hh|].
      injection Hh as ->.
      assert (Hin : In s (List.filter
                            (fun s' => String.eqb (Iperf3.continent s') (Iperf3.continent s))
                            filteredServers)) by (rewrite F; now left).
      apply List.filter_In in Hin as [Hin _]. now apply list_elem_of_In.
    + right. now repeat split.
Qed.

Lemma filter_take_length {A : Type} (f : A -> bool) (n : nat) (l : list A) :
  (length (List.filter f (take n l)) <= length (List.filter f l))%nat.
Proof.
  revert n. induction l as [|x l IH]; intros [|n]; simpl; try lia.
  specialize (IH n). destruct (f x); simpl; lia.
Qed.

Lemma filter_length_le {A : Type} (f : A -> bool) (l : list A) :
  (length (List.filter f l) <= length l)%nat.
Proof.
  induction l as [|x l IH]; cbn [List.filter length]; [lia|].
  destruct (f x); cbn [length]; lia.
Qed.

Lemma fromUserContinent_count (filteredServers : list Iperf3.Filtered.t) (u c : string) :
  let own :=
    take 2 (List.filter (fun s => String.eqb (Iperf3.continent s) u) filteredServers) in
  (length own <= 2)%nat
  /\ (c <> u ->
      List.filter (fun s => String.eqb (Iperf3.continent s) c) own = []).
Proof.
  intros own. split.
  - unfold own. rewrite length_take. lia.
  - intros N. apply filter_continent_nil. intros s Hs.
    pose proof (elem_of_sublist _ _ _ Hs (sublist_take _ _)) as H.
    apply list_elem_of_In, List.filter_In in H as [_ H].
    apply String.eqb_eq in H. congruence.
Qed.

Lemma fromOtherContinent_count (filteredServers : list Iperf3.Filtered.t)
    (u c' c : string) :
  let added :=
    List.filter (fun s => String.eqb (Iperf3.continent s) c)
      (Iperf3.fromOtherContinent (Iperf3.groupByContinent filteredServers) u [] c') in
  length added = 0%nat \/ (length added = 1%nat /\ c' = c /\ c' <> u).
Proof.
  intros added.
  pose proof (filter_length_le (fun s => String.eqb (Iperf3.continent s) c)
                (Iperf3.fromOtherContinent
                   (Iperf3.groupByContinent filteredServers) u [] c')) as Hle.
  pose proof (fromOtherContinent_length filteredServers u c') as H1.
  fold added in Hle. destruct added as [|s rest] eqn:E; [now left|]. right.
  assert (Hin : In s added) by (rewrite E; now left).
  unfold added in Hin. apply List.filter_In in Hin as [Hin Hc].
  apply String.eqb_eq in Hc. apply list_elem_of_In in Hin.
  pose proof (fromOtherContinent_one _ _ _ _ Hin) as (N & Hs & _).
  cbn [length] in *. repeat split; [lia | congruence | exact N].
Qed.

(** X21.  [runIperf3Tests] selects at most five servers: at most two of
    the continent of the operator and at most one of any other
    continent.  The limit of five is needed, the list before it holding
    up to eight servers. *)
Theorem iperf3_selection_limits (userCountry : string)
    (filteredServers : list Iperf3.Filtered.t) :
  (length (Iperf3.selectServers userCountry filteredServers) <= 5)%nat
  /\ (length (Iperf3.beforeLimit userCountry filteredServers) <= 8)%nat
  /\ (forall c,
        (length (List.filter (fun s => String.eqb (Iperf3.continent s) c)
                   (Iperf3.selectServers userCountry filteredServers))
         <= if String.eqb c (Iperf3.continentOf userCountry) then 2 else 1)%nat)
  /\ length (Iperf3.beforeLimit "RU" worldwide) = 8%nat.
Proof.
  rewrite selectServers_take.
  split; [rewrite length_take; lia|]. split; [|split; [|reflexivity]].
  - rewrite beforeLimit_parts.
    pose proof (fromUserContinent_count filteredServers
                  (Iperf3.continentOf userCountry) "") as [H2 _].
    unfold Iperf3.continentsToCheck. cbn [flat_map].
    rewrite !length_app. cbn [length].
    pose proof (fun c => fromOtherContinent_length filteredServers
                           (Iperf3.continentOf userCountry) c) as H.
    pose proof (H "Europe"). pose proof (H "North America"). pose proof (H "Asia").
    pose proof (H "South America"). pose proof (H "Oceania"). pose proof (H "Africa").
    lia.
  - intros c.
    etransitivity; [apply filter_take_length|].
    rewrite beforeLimit_parts.
    pose proof (fromUserContinent_count filteredServers
                  (Iperf3.continentOf userCountry) c) as [H2 H0].
    unfold Iperf3.continentsToCheck. cbn [flat_map].
    rewrite !List.filter_app, !length_app. cbn [List.filter length].
    pose proof (filter_length_le (fun s => String.eqb (Iperf3.continent s) c)
                  (take 2 (List.filter
                             (fun s => String.eqb (Iperf3.continent s)
                                         (Iperf3.continentOf userCountry))
                             filteredServers))) as Hle.
    pose proof (fromOtherContinent_count filteredServers
                  (Iperf3.continentOf userCountry) "Europe" c) as E1.
    pose proof (fromOtherContinent_count filteredServers
                  (Iperf3.continentOf userCountry) "North America" c) as E2.
    pose proof (fromOtherContinent_count filteredServers
                  (Iperf3.continentOf userCountry) "Asia" c) as E3.
    pose proof (fromOtherContinent_count filteredServers
                  (Iperf3.continentOf userCountry) "South America" c) as E4.
    pose proof (fromOtherContinent_count filteredServers
                  (Iperf3.continentOf userCountry) "Oceania" c) as E5.
    pose proof (fromOtherContinent_count filteredServers
                  (Iperf3.continentOf userCountry) "Africa" c) as E6.
    cbv zeta in E1, E2, E3, E4, E5, E6.
    destruct (String.eqb_spec c (Iperf3.continentOf userCountry)) as [Hu|Hu].
    + destruct E1 as [E1|(_ & <- & E1)]; [|now destruct E1].
      destruct E2 as [E2|(_ & <- & E2)]; [|now destruct E2].
      destruct E3 as [E3|(_ & <- & E3)]; [|now destruct E3].
      destruct E4 as [E4|(_ & <- & E4)]; [|now destruct E4].
      destruct E5 as [E5|(_ & <- & E5)]; [|now destruct E5].
      destruct E6 as [E6|(_ & <- & E6)]; [|now destruct E6].
      lia.
    + rewrite (H0 Hu) in *. cbn [length] in *.
      destruct E1 as [E1|(E1 & <- & _)];
        destruct E2 as [E2|(E2 & E2' & _)]; try discriminate E2';
        destruct E3 as [E3|(E3 & E3' & _)]; try discriminate E3';
        destruct E4 as [E4|(E4 & E4' & _)]; try discriminate E4';
        destruct E5 as [E5|(E5 & E5' & _)]; try discriminate E5';
        destruct E6 as [E6|(E6 & E6' & _)]; try discriminate E6';
        try subst c; try discriminate; lia.
Qed.

Lemma flat_map_nil {A B : Type} (f : A -> list B) (l : list A) :
  flat_map f l = [] <-> forall x, x ∈ l -> f x = [].
Proof.
  induction l as [|a l IH]; cbn [flat_map].
  - split; [intros _ x H; inversion H | reflexivity].
  - rewrite app_nil, IH. split.
    + intros [Ha Hl] x Hx. apply elem_of_cons in Hx as [->|Hx]; [exact Ha | now apply Hl].
    + intros H. split; [apply H; now left | intros x Hx; apply H; now right].
Qed.

Lemma fromOtherContinent_nil (filteredServers : list Iperf3.Filtered.t) (u c : string) :
  (forall s, s ∈ filteredServers -> Iperf3.continent s <> u) ->
  Iperf3.fromOtherContinent (Iperf3.groupByContinent filteredServers) u [] c = []
  <-> forall first,
        head (List.filter (fun s => String.eqb (Iperf3.continent s) c) filteredServers)
        = Some first ->
        15000 <= Iperf3.Filtered.Distance first.
Proof.
  intros Hu. rewrite fromOtherContinent_app. cbn [app].
  destruct (String.eqb_spec c u) as [->|N].
  - apply filter_continent_nil in Hu. rewrite Hu.
    split; [intros _ first H; discriminate H | reflexivity].
  - destruct (List.filter _ filteredServers) as [|first g]; cbn [head].
    + split; [intros _ first H; discriminate H | reflexivity].
    + destruct (Z.ltb_spec (Iperf3.Filtered.Distance first) 15000) as [Hd|Hd].
      * split; [discriminate|]. intros H. specialize (H first eq_refl). lia.
      * split; [|reflexivity]. now intros _ first' [= <-].
Qed.

(** X22.  [runIperf3Tests] returns the error "no iperf3 servers found
    to test" exactly when no server of the filtered list is of the
    continent of the operator and the first server of each of the six
    continents checked is 15000 km away or more; and when a server is
    of the continent of the operator, the first such server is the
    first to be tested. *)
Theorem iperf3_no_servers (userCountry : string)
    (filteredServers : list Iperf3.Filtered.t) :
  (Iperf3.serverList userCountry filteredServers
   = Return "no iperf3 servers found to test"
   <-> (forall s, s ∈ filteredServers ->
                  Iperf3.continent s <> Iperf3.continentOf userCountry)
       /\ (forall c first,
             c ∈ Iperf3.continentsToCheck ->
             head (List.filter (fun s => String.eqb (Iperf3.continent s) c)
                     filteredServers)
             = Some first ->
             15000 <= Iperf3.Filtered.Distance first))
  /\ (forall first,
        head (List.filter
                (fun s => String.eqb (Iperf3.continent s)
                            (Iperf3.continentOf userCountry))
                filteredServers)
        = Some first ->
        exists rest,
          Iperf3.serverList userCountry filteredServers = Proceed (first :: rest)).
Proof.
  unfold Iperf3.serverList. cbv zeta. rewrite selectServers_take, beforeLimit_parts.
  set (u := Iperf3.continentOf userCountry).
  set (own := List.filter (fun s => String.eqb (Iperf3.continent s) u) filteredServers).
  split.
  - split.
    + intros H.
      destruct (take 5 _) as [|x xs] eqn:E; [|discriminate H]. clear H.
      apply (f_equal length) in E. rewrite length_take, length_app in E.
      cbn [length] in E.
      assert (Hown : own = []).
      { destruct own as [|a [|b g]]; [reflexivity|..]; cbn in E; lia. }
      assert (Hu : forall s, s ∈ filteredServers -> Iperf3.continent s <> u)
        by now apply filter_continent_nil.
      split; [exact Hu|]. intros c first Hc. revert first.
      apply (proj1 (fromOtherContinent_nil filteredServers u c Hu)). revert c Hc.
      apply flat_map_nil. apply length_zero_iff_nil. rewrite Hown in E.
      change (length (take 2 (@nil Iperf3.Filtered.t))) with 0%nat in E. lia.
    + intros [Hu Hc]. pose proof Hu as Hown. apply filter_continent_nil in Hown.
      fold own in Hown. rewrite Hown.
      replace (flat_map _ Iperf3.continentsToCheck) with (@nil Iperf3.Filtered.t);
        [reflexivity|].
      symmetry. apply flat_map_nil. intros c Hin.
      apply (proj2 (fromOtherContinent_nil filteredServers u c Hu)).
      intros first. now apply Hc.
  - intros first Hfirst. destruct own as [|a g]; [discriminate Hfirst|].
    injection Hfirst as ->. destruct g as [|b g]; cbn [take app].
    + eexists. cbn [length Nat.eqb]. reflexivity.
    + eexists. cbn [length Nat.eqb]. reflexivity.
Qed.

Lemma omap_sufficient (ParseFloat : string -> Q * error) (est : Q)
    (l : list Iperf3.Candidate.t) :
  omap (fun server =>
          if Iperf3.sufficient ParseFloat est server
          then Some (Iperf3.serverWithBandwidth ParseFloat server) else None) l
  = Iperf3.serverWithBandwidth ParseFloat
      <$> List.filter (Iperf3.sufficient ParseFloat est) l.
Proof.
  induction l as [|x l IH]; [reflexivity|]. cbn [omap list_omap List.filter].
  destruct (Iperf3.sufficient ParseFloat est x); cbn [fmap list_fmap]; now rewrite IH.
Qed.

(** X23.  The servers [runIperf3Tests] keeps after the test of
    capacity are servers of the list in their order.  Either there are
    three or more and each offers at least twice the estimated
    bandwidth of the operator, or the whole list is kept; so servers
    are left whenever the list has any. *)
Theorem iperf3_filter_fallback (ParseFloat : string -> Q * error) (est : Q)
    (serversWithDistance : list Iperf3.Candidate.t) :
  (exists kept,
     kept `sublist_of` serversWithDistance
     /\ Iperf3.filterServers ParseFloat est serversWithDistance
        = Iperf3.serverWithBandwidth ParseFloat <$> kept)
  /\ ((3 <= length (Iperf3.filterServers ParseFloat est serversWithDistance))%nat
      /\ (forall s, s ∈ Iperf3.filterServers ParseFloat est serversWithDistance ->
                    (est * 2 <= Iperf3.Filtered.BandwidthGbps s * 1000)%Q)
      \/ Iperf3.filterServers ParseFloat est serversWithDistance
         = Iperf3.serverWithBandwidth ParseFloat <$> serversWithDistance)
  /\ (Iperf3.filterServers ParseFloat est serversWithDistance = []
      <-> serversWithDistance = []).
Proof.
  unfold Iperf3.filterServers. cbv zeta. rewrite omap_sufficient.
  destruct (Nat.ltb_spec
              (length (Iperf3.serverWithBandwidth ParseFloat
                         <$> List.filter (Iperf3.sufficient ParseFloat est)
                               serversWithDistance)) 3) as [H|H].
  - split; [exists serversWithDistance; now split|]. split; [now right|].
    destruct serversWithDistance; [now split | split; discriminate].
  - split; [eexists; split; [apply List_filter_sublist | reflexivity]|].
    split.
    + left. split; [exact H|]. intros s Hs.
      apply list_elem_of_fmap in Hs as (server & -> & Hs).
      apply list_elem_of_In, List.filter_In in Hs as [_ Hs].
      unfold Iperf3.sufficient, Qgeb in Hs. cbv zeta in Hs.
      now apply Qle_bool_iff in Hs.
    + split.
      * intros E. rewrite E in H. cbn in H. lia.
      * intros ->. reflexivity.
Qed.

Lemma iperf3_selected_origin_witness :
  reachable "fra.example.net" "DE" "" 2000 ∈ Iperf3.selectServers "RU" worldwide
  /\ Iperf3.continent (reachable "fra.example.net" "DE" "" 2000) ∈ Iperf3.continentsToCheck.
Proof.
  assert (H : reachable "fra.example.net" "DE" "" 2000
              ∈ Iperf3.selectServers "RU" worldwide).
  { apply list_elem_of_In. vm_compute. tauto. }
  split; [exact H|].
  destruct (iperf3_selected_origin "RU" worldwide _ H) as (_ & [E|(Hc & _)]).
  - discriminate E.
  - exact Hc.
Defined.

(** * [humanReadableBytes] *)



